(** * analyze_open_close_diff.py: monthly average of (close - open), scaled and
    rendered as an SVG line chart.

    Shallow embedding of the script.  Python floats are IEEE-754 binary64
    values, modelled by [spec_float] with precision 53 and maximal exponent
    1024; exceptions are modelled by the [result] type; [datetime] values are
    records of year, month and day (the script only ever builds datetimes
    whose time of day is midnight). *)

From Stdlib Require Import ZArith List String Ascii Bool Lia DecimalString.
From Stdlib Require Import Permutation Sorted.
From Stdlib Require Import SpecFloat.
Import ListNotations.

Local Open Scope string_scope.
Local Open Scope Z_scope.

(** ** Exceptions *)

(** The exceptions the script and the library functions it calls can raise.
    [OutOfFuel] is not a Python exception: it marks the exhaustion of the
    unrolling bound of the one [while] loop of the script, and is shown
    unreachable on valid dates ([svg_lines_fuel_enough]). *)
Inductive exn : Type :=
| ValueError
| ZeroDivisionError
| KeyError
| FileNotFoundError (msg : string)
| OSError
| OutOfFuel.

Inductive result (A : Type) : Type :=
| Ok (a : A)
| Raise (e : exn).

Arguments Ok {A} a.
Arguments Raise {A} e.

Definition bind {A B : Type} (r : result A) (k : A -> result B) : result B :=
  match r with
  | Ok a => k a
  | Raise e => Raise e
  end.

Notation "x <- r ;; k" := (bind r (fun x => k))
  (at level 61, r at next level, right associativity).
Notation "' pat <- r ;; k" := (bind r (fun x => match x with pat => k end))
  (at level 61, pat pattern, r at next level, right associativity).

(** [[f(x) for x in xs]] where [f] may raise: elements are evaluated from left
    to right and the first exception aborts the comprehension. *)
Fixpoint map_result {A B : Type} (f : A -> result B) (xs : list A)
  : result (list B) :=
  match xs with
  | [] => Ok []
  | x :: xs' =>
      y <- f x ;;
      ys <- map_result f xs' ;;
      Ok (y :: ys)
  end.

(** ** Binary64 floats *)

(** A Python float is a [spec_float] that is valid for the binary64 format
    ([valid_binary] at the precision and exponent below); the operations
    return valid floats on valid ones.  The properties proved further down
    hold for every [spec_float]. *)
Definition float : Type := spec_float.

Module F64.

Definition prec : Z := 53.
Definition emax : Z := 1024.

Definition add : float -> float -> float := SFadd prec emax.
Definition sub : float -> float -> float := SFsub prec emax.
Definition mul : float -> float -> float := SFmul prec emax.
Definition eqb : float -> float -> bool := SFeqb.
Definition ltb : float -> float -> bool := SFltb.

(** [float(n)] for a Python int, and the implicit conversion of an int
    operand in mixed arithmetic: the nearest float, ties to even.  (CPython
    raises OverflowError above the float range; every int the script converts
    is a small constant, a list length or a number of days.) *)
Definition of_Z (n : Z) : float := binary_normalize prec emax n 0 false.

Definition is_zero (x : float) : bool :=
  match x with
  | S754_zero _ => true
  | _ => false
  end.

(** [x / y] on floats: Python raises ZeroDivisionError when the divisor is a
    zero of either sign, and otherwise divides as IEEE-754 does. *)
Definition truediv (x y : float) : result float :=
  if is_zero y then Raise ZeroDivisionError else Ok (SFdiv prec emax x y).

Definition zero : float := S754_zero false.
Definition one : float := of_Z 1.
Definition nan : float := S754_nan.
Definition inf : float := S754_infinity false.

End F64.

(** ** Strings *)

Module Str.

Definition is_digit (c : ascii) : bool :=
  let n := Z.of_nat (nat_of_ascii c) in (48 <=? n) && (n <=? 57).

Definition digit_value (c : ascii) : Z := Z.of_nat (nat_of_ascii c) - 48.

(** The ASCII characters [float()] strips as white space: tab, line feed,
    vertical tab, form feed, carriage return and space. *)
Definition is_space (c : ascii) : bool :=
  let n := Z.of_nat (nat_of_ascii c) in
  ((9 <=? n) && (n <=? 13)) || (n =? 32).

Definition lower (c : ascii) : ascii :=
  let n := nat_of_ascii c in
  if ((65 <=? n) && (n <=? 90))%nat then ascii_of_nat (n + 32) else c.

Fixpoint lstrip (cs : list ascii) : list ascii :=
  match cs with
  | c :: cs' => if is_space c then lstrip cs' else cs
  | [] => []
  end.

Definition strip (cs : list ascii) : list ascii :=
  rev (lstrip (rev (lstrip cs))).

(** [s.replace(old, "")] for a one-character [old]: every occurrence of the
    character is removed. *)
Fixpoint remove_char (old : ascii) (s : string) : string :=
  match s with
  | EmptyString => EmptyString
  | String c s' =>
      if Ascii.eqb c old then remove_char old s'
      else String c (remove_char old s')
  end.

(** Decimal digits of a non-negative integer, as [str(n)] prints them. *)
Definition of_nonneg (n : Z) : string :=
  NilZero.string_of_uint (N.to_uint (Z.to_N n)).

End Str.

(** ** Conversions between floats and strings *)

Module FloatStr.

(** [digit (["_"] digit)*] after its first digit: [acc] is the value of the
    digits read so far and [n] their number. *)
Fixpoint digitpart_tail (cs : list ascii) (acc n : Z) : Z * Z * list ascii :=
  match cs with
  | c :: cs' =>
      if Str.is_digit c
      then digitpart_tail cs' (10 * acc + Str.digit_value c) (n + 1)
      else if Ascii.eqb c "_" then
        match cs' with
        | d :: cs'' =>
            if Str.is_digit d
            then digitpart_tail cs'' (10 * acc + Str.digit_value d) (n + 1)
            else (acc, n, cs)
        | [] => (acc, n, cs)
        end
      else (acc, n, cs)
  | [] => (acc, n, cs)
  end.

Definition digitpart (cs : list ascii) (acc n : Z)
  : option (Z * Z * list ascii) :=
  match cs with
  | c :: cs' =>
      if Str.is_digit c
      then Some (digitpart_tail cs' (10 * acc + Str.digit_value c) (n + 1))
      else None
  | [] => None
  end.

(** [number ::= [digitpart] "." digitpart | digitpart ["."]]: the digits read
    as one integer, the number of digits after the point, and the rest. *)
Definition number (cs : list ascii) : option (Z * Z * list ascii) :=
  match digitpart cs 0 0 with
  | Some (int_part, _, rest) =>
      match rest with
      | c :: rest' =>
          if Ascii.eqb c "."
          then match digitpart rest' int_part 0 with
               | Some r => Some r
               | None => Some (int_part, 0, rest')
               end
          else Some (int_part, 0, rest)
      | [] => Some (int_part, 0, [])
      end
  | None =>
      match cs with
      | c :: rest' => if Ascii.eqb c "." then digitpart rest' 0 0 else None
      | [] => None
      end
  end.

Definition sign (cs : list ascii) : bool * list ascii :=
  match cs with
  | c :: cs' =>
      if Ascii.eqb c "-" then (true, cs')
      else if Ascii.eqb c "+" then (false, cs')
      else (false, cs)
  | [] => (false, [])
  end.

(** [exponent ::= ("e" | "E") [sign] digitpart], up to the end of the input;
    no exponent at all counts as exponent 0. *)
Definition exponent (cs : list ascii) : option Z :=
  match cs with
  | [] => Some 0
  | c :: cs' =>
      if Ascii.eqb (Str.lower c) "e" then
        let '(neg, ds) := sign cs' in
        match digitpart ds 0 0 with
        | Some (e, _, []) => Some (if neg then - e else e)
        | _ => None
        end
      else None
  end.

(** The float nearest to [(-1)^neg * n * 10^k], ties to even, as the correctly
    rounded conversion of CPython gives it. *)
Definition of_decimal (neg : bool) (n k : Z) : float :=
  match n with
  | Z0 => S754_zero neg
  | Zpos m =>
      if 0 <=? k
      then binary_normalize F64.prec F64.emax
             (cond_Zopp neg (n * 10 ^ k)) 0 false
      else SFdiv F64.prec F64.emax
             (S754_finite neg m 0) (S754_finite false (Z.to_pos (10 ^ (- k))) 0)
  | Zneg _ => F64.nan
  end.

Definition lower_string (cs : list ascii) : string :=
  string_of_list_ascii (map Str.lower cs).

(** [float(s)] for a string: white space is stripped, then
    [[sign] (floatnumber | "inf" | "infinity" | "nan")] is read, letters in
    either case.  Anything else raises ValueError.  Strings are sequences of
    ASCII characters here: the digits and white space outside ASCII that
    [float] also accepts are not modelled. *)
Definition py_float (s : string) : result float :=
  let '(neg, body) := sign (Str.strip (list_ascii_of_string s)) in
  let word := lower_string body in
  if (String.eqb word "inf" || String.eqb word "infinity")%bool
  then Ok (S754_infinity neg)
  else if String.eqb word "nan" then Ok F64.nan
  else
    match number body with
    | Some (mant, frac_digits, rest) =>
        match exponent rest with
        | Some e => Ok (of_decimal neg mant (e - frac_digits))
        | None => Raise ValueError
        end
    | None => Raise ValueError
    end.

(** Rounding of [num / den] ([den > 0]) to the nearest integer, ties to
    even. *)
Definition round_half_even (num den : Z) : Z :=
  let q := num / den in
  let r := num mod den in
  match 2 * r ?= den with
  | Lt => q
  | Gt => q + 1
  | Eq => if Z.even q then q else q + 1
  end.

Definition pad2 (n : Z) : string :=
  if n <? 10 then "0" ++ Str.of_nonneg n else Str.of_nonneg n.

Definition fixed2 (neg : bool) (hundredths : Z) : string :=
  (if neg then "-" else "")
    ++ Str.of_nonneg (hundredths / 100) ++ "." ++ pad2 (hundredths mod 100).

(** [f"{x:.2f}"]: the exact value of the float rounded to two decimals, ties
    to even; the sign of a negative value is kept even when it rounds to
    zero. *)
Definition format_2f (x : float) : string :=
  match x with
  | S754_nan => "nan"
  | S754_infinity s => if s then "-inf" else "inf"
  | S754_zero s => fixed2 s 0
  | S754_finite s m e =>
      fixed2 s
        match e with
        | Zneg p => round_half_even (Zpos m * 100) (2 ^ Zpos p)
        | _ => Zpos m * 100 * 2 ^ e
        end
  end.

End FloatStr.

(** ** Datetimes *)

Record datetime : Type := mkdatetime { year : Z; month : Z; day : Z }.

Module Datetime.

Definition is_leap (y : Z) : bool :=
  (y mod 4 =? 0) && (negb (y mod 100 =? 0) || (y mod 400 =? 0)).

Definition days_in_month (y m : Z) : Z :=
  if (m =? 2) && is_leap y then 29
  else nth (Z.to_nat m) [0; 31; 28; 31; 30; 31; 30; 31; 31; 30; 31; 30; 31] 0.

Definition days_before_year (y : Z) : Z :=
  let p := y - 1 in p * 365 + p / 4 - p / 100 + p / 400.

Definition days_before_month (y m : Z) : Z :=
  nth (Z.to_nat m) [0; 0; 31; 59; 90; 120; 151; 181; 212; 243; 273; 304; 334] 0
  + (if (2 <? m) && is_leap y then 1 else 0).

(** [d.toordinal()]: the number of days since 0001-01-01, counting from 1. *)
Definition toordinal (d : datetime) : Z :=
  days_before_year (year d) + days_before_month (year d) (month d) + day d.

(** The range check of the [datetime] constructor. *)
Definition valid (d : datetime) : bool :=
  (1 <=? year d) && (year d <=? 9999)
  && (1 <=? month d) && (month d <=? 12)
  && (1 <=? day d) && (day d <=? days_in_month (year d) (month d)).

(** [datetime(y, m, d)]: raises ValueError outside the supported range. *)
Definition make (y m d : Z) : result datetime :=
  let dt := mkdatetime y m d in
  if valid dt then Ok dt else Raise ValueError.

(** Datetimes are ordered as the tuples (year, month, day). *)
Definition ltb (a b : datetime) : bool :=
  (year a <? year b)
  || ((year a =? year b)
      && ((month a <? month b)
          || ((month a =? month b) && (day a <? day b)))).

Definition eqb (a b : datetime) : bool :=
  (year a =? year b) && (month a =? month b) && (day a =? day b).

Definition leb (a b : datetime) : bool := ltb a b || eqb a b.

(** [(a - b).days] *)
Definition days_between (a b : datetime) : Z := toordinal a - toordinal b.

Definition all_digits (cs : list ascii) : bool := forallb Str.is_digit cs.

Definition digits_value (cs : list ascii) : Z :=
  fold_left (fun acc c => 10 * acc + Str.digit_value c) cs 0.

Fixpoint split_on (sep : ascii) (cs : list ascii) : list (list ascii) :=
  match cs with
  | [] => [[]]
  | c :: cs' =>
      match split_on sep cs' with
      | tok :: toks => if Ascii.eqb c sep then [] :: tok :: toks
                       else (c :: tok) :: toks
      | [] => [[c]]
      end
  end.

Definition in_range (lo hi c : ascii) : bool :=
  ((nat_of_ascii lo <=? nat_of_ascii c)
   && (nat_of_ascii c <=? nat_of_ascii hi))%nat.

(** The text [%m] accepts: [1[0-2]|0[1-9]|[1-9]]. *)
Definition month_token (cs : list ascii) : bool :=
  match cs with
  | [a] => in_range "1" "9" a
  | [a; b] => (Ascii.eqb a "1" && in_range "0" "2" b)
              || (Ascii.eqb a "0" && in_range "1" "9" b)
  | _ => false
  end.

(** The text [%d] accepts: [3[0-1]|[1-2]\d|0[1-9]|[1-9]| [1-9]]. *)
Definition day_token (cs : list ascii) : bool :=
  match cs with
  | [a] => in_range "1" "9" a
  | [a; b] => (Ascii.eqb a "3" && in_range "0" "1" b)
              || (in_range "1" "2" a && Str.is_digit b)
              || (Ascii.eqb a "0" && in_range "1" "9" b)
              || (Ascii.eqb a " " && in_range "1" "9" b)
  | _ => false
  end.

(** The text [%Y] accepts: four digits. *)
Definition year_token (cs : list ascii) : bool :=
  (Nat.eqb (List.length cs) 4) && all_digits cs.

(** [datetime.strptime(s, "%m/%d/%Y")].  The format's regular expression is
    month, [/], day, [/], year, matched against the whole string; none of the
    three fields can contain [/], so the string matches exactly when it
    splits at [/] into three accepted fields.  The day is then checked
    against the month by the constructor.  Only the ASCII digits are
    digits here. *)
Definition strptime_mdY (s : string) : result datetime :=
  match split_on "/" (list_ascii_of_string s) with
  | [m; d; y] =>
      if month_token m && day_token d && year_token y
      then make (digits_value y) (digits_value m)
                (digits_value (Str.lstrip d))
      else Raise ValueError
  | _ => Raise ValueError
  end.

Definition month_abbr (m : Z) : string :=
  nth (Z.to_nat m)
      [""; "Jan"; "Feb"; "Mar"; "Apr"; "May"; "Jun";
       "Jul"; "Aug"; "Sep"; "Oct"; "Nov"; "Dec"] "".

(** [f"{d:%b %Y}"] in the C locale; the C library of Linux prints the year
    without padding. *)
Definition format_bY (d : datetime) : string :=
  month_abbr (month d) ++ " " ++ Str.of_nonneg (year d).

End Datetime.

(** ** Built-in functions *)

(** [min(xs)]: the first smallest element; only [item < smallest] is ever
    asked.  An empty argument raises ValueError. *)
Definition py_min {A : Type} (lt : A -> A -> bool) (xs : list A) : result A :=
  match xs with
  | [] => Raise ValueError
  | x :: rest =>
      Ok (fold_left (fun cur item => if lt item cur then item else cur) rest x)
  end.

(** [max(xs)]: the first largest element; only [item > largest] is asked. *)
Definition py_max {A : Type} (lt : A -> A -> bool) (xs : list A) : result A :=
  match xs with
  | [] => Raise ValueError
  | x :: rest =>
      Ok (fold_left (fun cur item => if lt cur item then item else cur) rest x)
  end.

(** [sum(xs)] on floats: the start value 0 and then the items are added from
    left to right.  (CPython from 3.12 on carries a compensation term through
    the same left-to-right pass; the examples below that depend on the order
    of summation are chosen so that both give the same floats.) *)
Definition py_sum (xs : list float) : float := fold_left F64.add xs F64.zero.

(** [x / n] for a float [x] and an int [n]: the int is converted first. *)
Definition truediv_int (x : float) (n : Z) : result float :=
  F64.truediv x (F64.of_Z n).

(** [a / b] for two ints: ZeroDivisionError when [b] is 0, and otherwise the
    float nearest to the exact quotient.  (CPython raises OverflowError when
    the quotient exceeds the float range, which takes ints that no date
    difference reaches.) *)
Definition int_truediv (a b : Z) : result float :=
  if b =? 0 then Raise ZeroDivisionError
  else
    let neg := xorb (a <? 0) (b <? 0) in
    match Z.abs a with
    | Zpos m =>
        Ok (SFdiv F64.prec F64.emax
              (S754_finite neg m 0) (S754_finite false (Z.to_pos (Z.abs b)) 0))
    | _ => Ok (S754_zero neg)
    end.

(** ** The script *)

Definition SVG_WIDTH : Z := 1000.
Definition SVG_HEIGHT : Z := 600.
Definition MARGIN_LEFT : Z := 80.
Definition MARGIN_RIGHT : Z := 40.
Definition MARGIN_TOP : Z := 50.
Definition MARGIN_BOTTOM : Z := 80.

(** *** read_price_rows *)

(** A row as [csv.DictReader] yields it: a dict from column name to text,
    here an association list.  Every value is text: a row shorter than the
    header, whose missing values the reader fills with [None], is not
    modelled. *)
Definition row : Type := list (string * string).

(** [r[key]]: a missing key raises KeyError. *)
Fixpoint row_get (r : row) (key : string) : result string :=
  match r with
  | [] => Raise KeyError
  | (k, v) :: r' => if String.eqb k key then Ok v else row_get r' key
  end.

Definition price_row : Type := datetime * float * float.

(** The body of the loop of [read_price_rows] for one row. *)
Definition read_price_row (r : row) : result price_row :=
  date_text <- row_get r "Date" ;;
  date <- Datetime.strptime_mdY date_text ;;
  open_text <- row_get r "Open" ;;
  open_price <- FloatStr.py_float (Str.remove_char "$" open_text) ;;
  close_text <- row_get r "Close/Last" ;;
  close_price <- FloatStr.py_float (Str.remove_char "$" close_text) ;;
  Ok (date, open_price, close_price).

(** [list(read_price_rows(csv_path))] on the rows the reader yields from the
    file: the first malformed row raises. *)
Definition read_price_rows (rows : list row) : result (list price_row) :=
  map_result read_price_row rows.

(** *** compute_monthly_average_diff *)

Definition month_key : Type := Z * Z.

Definition key_eqb (a b : month_key) : bool :=
  (fst a =? fst b) && (snd a =? snd b).

(** [grouped[key].append(v)] on a [defaultdict(list)], kept in insertion
    order as Python dicts are. *)
Fixpoint dict_append (key : month_key) (v : float)
    (grouped : list (month_key * list float)) : list (month_key * list float) :=
  match grouped with
  | [] => [(key, [v])]
  | (k, vs) :: rest =>
      if key_eqb k key then (k, (vs ++ [v])%list) :: rest
      else (k, vs) :: dict_append key v rest
  end.

Definition group_rows (rows : list price_row) : list (month_key * list float) :=
  fold_left
    (fun grouped '(date, open_price, close_price) =>
       dict_append (year date, month date)
                   (F64.sub close_price open_price) grouped)
    rows [].

Definition monthly_point : Type := datetime * float.

Definition average_group (g : month_key * list float) : result monthly_point :=
  let '((y, m), diffs) := g in
  avg_diff <- truediv_int (py_sum diffs) (Z.of_nat (List.length diffs)) ;;
  first_day <- Datetime.make y m 1 ;;
  Ok (first_day, avg_diff).

(** [averaged.sort(key=lambda item: item[0])]: a stable sort that only asks
    [<] of the keys; the result of a stable sort is determined by the order,
    here written as an insertion sort. *)
Fixpoint insert_by_date (x : monthly_point) (sorted : list monthly_point)
  : list monthly_point :=
  match sorted with
  | [] => [x]
  | y :: ys =>
      if Datetime.ltb (fst y) (fst x) then y :: insert_by_date x ys
      else x :: y :: ys
  end.

Definition sort_by_date (l : list monthly_point) : list monthly_point :=
  fold_right insert_by_date [] l.

Definition compute_monthly_average_diff (rows : list price_row)
  : result (list monthly_point) :=
  averaged <- map_result average_group (group_rows rows) ;;
  Ok (sort_by_date averaged).

(** *** scale_points *)

(** The extrema [scale_points] returns; the two closures it returns with them,
    [date_to_x] and [value_to_y], are functions of this record. *)
Record scale : Type := mkscale {
  min_date : datetime;
  max_date : datetime;
  min_value : float;
  max_value : float
}.

Definition total_width : Z := SVG_WIDTH - MARGIN_LEFT - MARGIN_RIGHT.
Definition total_height : Z := SVG_HEIGHT - MARGIN_TOP - MARGIN_BOTTOM.

(** [if max_value == min_value: max_value += 1; min_value -= 1] *)
Definition widen (lo hi : float) : float * float :=
  if F64.eqb hi lo then (F64.sub lo (F64.of_Z 1), F64.add hi (F64.of_Z 1))
  else (lo, hi).

(** The first half of [scale_points]: the extrema of the dates and of the
    values, the latter widened when they coincide. *)
Definition extrema (points : list monthly_point) : result scale :=
  let dates := map fst points in
  let values := map snd points in
  lo_date <- py_min Datetime.ltb dates ;;
  hi_date <- py_max Datetime.ltb dates ;;
  lo_value <- py_min F64.ltb values ;;
  hi_value <- py_max F64.ltb values ;;
  let '(lo, hi) := widen lo_value hi_value in
  Ok (mkscale lo_date hi_date lo hi).

Definition date_to_x (sc : scale) (date : datetime) : result float :=
  let days := Datetime.days_between (max_date sc) (min_date sc) in
  let span := if days =? 0 then 1 else days in
  q <- int_truediv (Datetime.days_between date (min_date sc)) span ;;
  Ok (F64.add (F64.of_Z MARGIN_LEFT) (F64.mul q (F64.of_Z total_width))).

Definition value_to_y (sc : scale) (value : float) : result float :=
  q <- F64.truediv (F64.sub value (min_value sc))
                   (F64.sub (max_value sc) (min_value sc)) ;;
  Ok (F64.add (F64.of_Z MARGIN_TOP)
              (F64.mul (F64.sub (F64.of_Z 1) q) (F64.of_Z total_height))).

Definition scale_point (sc : scale) (pt : monthly_point)
  : result (float * float) :=
  x <- date_to_x sc (fst pt) ;;
  y <- value_to_y sc (snd pt) ;;
  Ok (x, y).

Definition scale_points (points : list monthly_point)
  : result (list (float * float) * scale) :=
  sc <- extrema points ;;
  scaled <- map_result (scale_point sc) points ;;
  Ok (scaled, sc).

(** *** build_svg *)

(** The entries of [svg_lines], one constructor for each string template of
    [build_svg], carrying the values the template interpolates. *)
Inductive svg_line : Type :=
| SvgOpen
| SvgStyle
| Background
| AxisFrame
| DataPath (path_data : string)
| Title
| XAxisLabel
| YAxisLabel
| Circle (x y : float)
| ValueTickLine (y : float)
| ValueTickText (y value : float)
| DateTickLine (x : float)
| DateTickText (x : float) (current : datetime)
| SvgClose.

(** [" ".join(f"L{x:.2f},{y:.2f}" for x, y in scaled_points)], and then
    ["M" + path_data[1:]] when that is not empty. *)
Definition path_data_of (scaled_points : list (float * float)) : string :=
  let joined :=
    String.concat " "
      (map (fun '(x, y) =>
              "L" ++ FloatStr.format_2f x ++ "," ++ FloatStr.format_2f y)
           scaled_points) in
  match joined with
  | EmptyString => EmptyString
  | String _ tail => "M" ++ tail
  end.

Definition tick_count : Z := 6.

(** [min_value + i * (max_value - min_value) / (tick_count - 1)] *)
Definition value_tick (sc : scale) (i : Z) : result float :=
  q <- truediv_int
         (F64.mul (F64.of_Z i) (F64.sub (max_value sc) (min_value sc)))
         (tick_count - 1) ;;
  Ok (F64.add (min_value sc) q).

Definition value_ticks (sc : scale) : result (list float) :=
  map_result (value_tick sc) (map Z.of_nat (seq 0 (Z.to_nat tick_count))).

Definition value_tick_lines (sc : scale) (value : float)
  : result (list svg_line) :=
  y <- value_to_y sc value ;;
  Ok [ValueTickLine y; ValueTickText y value].

(** The month after the next two, on its first day. *)
Definition next_quarter (current : datetime) : result datetime :=
  if 10 <=? month current
  then Datetime.make (year current + 1) ((month current + 3 - 1) mod 12 + 1) 1
  else Datetime.make (year current) (month current + 3) 1.

(** The [while current <= max_date] loop, unrolled at most [fuel] times. *)
Fixpoint date_ticks (fuel : nat) (sc : scale) (current : datetime)
  : result (list svg_line) :=
  match fuel with
  | O => Raise OutOfFuel
  | S fuel' =>
      if Datetime.leb current (max_date sc) then
        x <- date_to_x sc current ;;
        next_month <- next_quarter current ;;
        rest <- date_ticks fuel' sc next_month ;;
        Ok (DateTickLine x :: DateTickText x current :: rest)
      else Ok []
  end.

(** A bound on the number of tests of the loop condition: one for each month
    from the year of the earliest date to the end of the year of the latest,
    and one more. *)
Definition date_ticks_fuel (sc : scale) : nat :=
  S (Z.to_nat (12 * (year (max_date sc) - year (min_date sc)) + 12)).

Definition svg_lines (points : list monthly_point) : result (list svg_line) :=
  '(scaled_points, sc) <- scale_points points ;;
  let path_data := path_data_of scaled_points in
  ticks <- value_ticks sc ;;
  let head :=
    [SvgOpen; SvgStyle; Background; AxisFrame; DataPath path_data;
     Title; XAxisLabel; YAxisLabel] in
  let circles :=
    map (fun '((x, y), _) => Circle x y) (combine scaled_points points) in
  tick_lines <- map_result (value_tick_lines sc) ticks ;;
  current <- Datetime.make (year (min_date sc)) (month (min_date sc)) 1 ;;
  date_lines <- date_ticks (date_ticks_fuel sc) sc current ;;
  Ok (head ++ circles ++ List.concat tick_lines ++ date_lines
      ++ [SvgClose])%list.

(** The double quote character, and an attribute [ name="value"]. *)
Definition dquote : string := String (ascii_of_nat 34) EmptyString.

Definition attr (name value : string) : string :=
  " " ++ name ++ "=" ++ dquote ++ value ++ dquote.

Definition int_str (n : Z) : string := Str.of_nonneg n.

Definition data_colour : string := "#1f77b4".

(** The text of each entry of [svg_lines].  The two floats that are printed
    without a format, [SVG_WIDTH / 2] and
    [MARGIN_TOP + (SVG_HEIGHT - MARGIN_TOP - MARGIN_BOTTOM)/2], are the
    constants 500.0 and 285.0. *)
Definition render_line (l : svg_line) : string :=
  match l with
  | SvgOpen =>
      "<svg" ++ attr "xmlns" "http://www.w3.org/2000/svg"
        ++ attr "width" (int_str SVG_WIDTH)
        ++ attr "height" (int_str SVG_HEIGHT)
        ++ attr "viewBox"
             ("0 0 " ++ int_str SVG_WIDTH ++ " " ++ int_str SVG_HEIGHT)
        ++ ">"
  | SvgStyle =>
      "<style>text { font-family: Arial, sans-serif; font-size: 14px; }</style>"
  | Background =>
      "<rect" ++ attr "x" "0" ++ attr "y" "0"
        ++ attr "width" (int_str SVG_WIDTH)
        ++ attr "height" (int_str SVG_HEIGHT)
        ++ attr "fill" "white" ++ attr "stroke" "none" ++ "/>"
  | AxisFrame =>
      "<path"
        ++ attr "d" ("M" ++ int_str MARGIN_LEFT ++ "," ++ int_str MARGIN_TOP
                     ++ " V" ++ int_str (SVG_HEIGHT - MARGIN_BOTTOM)
                     ++ " H" ++ int_str (SVG_WIDTH - MARGIN_RIGHT))
        ++ attr "stroke" "black" ++ attr "fill" "none"
        ++ attr "stroke-width" "2" ++ "/>"
  | DataPath path_data =>
      match path_data with
      | EmptyString => EmptyString
      | _ =>
          "<path" ++ attr "d" path_data ++ attr "fill" "none"
            ++ attr "stroke" data_colour ++ attr "stroke-width" "2" ++ "/>"
      end
  | Title =>
      "<text" ++ attr "x" "500.0" ++ attr "y" (int_str (MARGIN_TOP - 15))
        ++ attr "text-anchor" "middle"
        ++ ">Average Difference Between Close and Open Prices (Monthly)</text>"
  | XAxisLabel =>
      "<text" ++ attr "x" "500.0" ++ attr "y" (int_str (SVG_HEIGHT - 20))
        ++ attr "text-anchor" "middle" ++ ">Month</text>"
  | YAxisLabel =>
      "<text" ++ attr "x" (int_str (MARGIN_LEFT - 60)) ++ attr "y" "285.0"
        ++ attr "text-anchor" "middle"
        ++ attr "transform"
             ("rotate(-90 " ++ int_str (MARGIN_LEFT - 60) ++ ",285.0)")
        ++ ">Average Close - Open ($)</text>"
  | Circle x y =>
      "<circle" ++ attr "cx" (FloatStr.format_2f x)
        ++ attr "cy" (FloatStr.format_2f y)
        ++ attr "r" "4" ++ attr "fill" data_colour ++ "/>"
  | ValueTickLine y =>
      "<line" ++ attr "x1" (int_str (MARGIN_LEFT - 5))
        ++ attr "y1" (FloatStr.format_2f y)
        ++ attr "x2" (int_str MARGIN_LEFT)
        ++ attr "y2" (FloatStr.format_2f y)
        ++ attr "stroke" "black" ++ "/>"
  | ValueTickText y value =>
      "<text" ++ attr "x" (int_str (MARGIN_LEFT - 10))
        ++ attr "y" (FloatStr.format_2f (F64.add y (F64.of_Z 5)))
        ++ attr "text-anchor" "end"
        ++ ">" ++ FloatStr.format_2f value ++ "</text>"
  | DateTickLine x =>
      "<line" ++ attr "x1" (FloatStr.format_2f x)
        ++ attr "y1" (int_str (SVG_HEIGHT - MARGIN_BOTTOM))
        ++ attr "x2" (FloatStr.format_2f x)
        ++ attr "y2" (int_str (SVG_HEIGHT - MARGIN_BOTTOM + 5))
        ++ attr "stroke" "black" ++ "/>"
  | DateTickText x current =>
      "<text" ++ attr "x" (FloatStr.format_2f x)
        ++ attr "y" (int_str (SVG_HEIGHT - MARGIN_BOTTOM + 25))
        ++ attr "text-anchor" "middle"
        ++ ">" ++ Datetime.format_bY current ++ "</text>"
  | SvgClose => "</svg>"
  end.

Definition nonempty (s : string) : bool :=
  match s with
  | EmptyString => false
  | _ => true
  end.

Definition newline : string := String (ascii_of_nat 10) EmptyString.

(** [build_svg]: the lines that are not empty, joined by line feeds. *)
Definition build_svg (points : list monthly_point) : result string :=
  lines <- svg_lines points ;;
  Ok (String.concat newline (filter nonempty (map render_line lines))).

(** *** main *)

(** What [main] touches of the outside world: the regular files with their
    text, the directories, and what has been printed. *)
Record world : Type := mkworld {
  files : list (string * string);
  dirs : list string;
  stdout : list string
}.

Fixpoint file_text (fs : list (string * string)) (path : string)
  : option string :=
  match fs with
  | [] => None
  | (p, text) :: fs' =>
      if String.eqb p path then Some text else file_text fs' path
  end.

Definition is_file (w : world) (path : string) : bool :=
  match file_text (files w) path with
  | Some _ => true
  | None => false
  end.

Definition is_dir (w : world) (path : string) : bool :=
  existsb (String.eqb path) (dirs w).

(** [path.exists()] *)
Definition path_exists (w : world) (path : string) : bool :=
  is_file w path || is_dir w path.

(** [parent / name] *)
Definition path_join (parent name : string) : string :=
  if String.eqb parent "/" then "/" ++ name else parent ++ "/" ++ name.

(** [path.open("r")] followed by reading the whole text. *)
Definition read_text (w : world) (path : string) : result string :=
  match file_text (files w) path with
  | Some text => Ok text
  | None => if is_dir w path then Raise OSError
            else Raise (FileNotFoundError path)
  end.

(** [path.mkdir(parents=True, exist_ok=True)], below an existing parent. *)
Definition mkdir (w : world) (path : string) : result world :=
  if is_dir w path then Ok w
  else if is_file w path then Raise OSError
  else Ok (mkworld (files w) (path :: dirs w) (stdout w)).

(** [path.write_text(text)] *)
Definition write_text (w : world) (path text : string) : result world :=
  if is_dir w path then Raise OSError
  else Ok (mkworld ((path, text) :: files w) (dirs w) (stdout w)).

Definition print (w : world) (text : string) : world :=
  mkworld (files w) (dirs w) (stdout w ++ [text])%list.

Section Main.

(** The directory of the script, [Path(__file__).resolve().parent]. *)
Variable repo_root : string.

(** The rows [csv.DictReader] yields from the text of a file. *)
Variable csv_rows : string -> list row.

Definition data_path : string :=
  path_join repo_root "HistoricalData_1760090934890.csv".

(** The pure part of [main]: from the text of the input file to the text of
    the chart. *)
Definition chart_of_text (text : string) : result string :=
  rows <- read_price_rows (csv_rows text) ;;
  monthly_diff <- compute_monthly_average_diff rows ;;
  build_svg monthly_diff.

Definition output_dir : string := path_join repo_root "plots".

Definition output_file : string :=
  path_join output_dir "average_open_close_difference.svg".

(** [main] after its check of the input path: the world it leaves, and
    whether it ended normally or by an exception. *)
Definition main_body (w : world) : world * result unit :=
  match (text <- read_text w data_path ;; chart_of_text text) with
  | Raise e => (w, Raise e)
  | Ok svg_content =>
      match mkdir w output_dir with
      | Raise e => (w, Raise e)
      | Ok w1 =>
          match write_text w1 output_file svg_content with
          | Raise e => (w1, Raise e)
          | Ok w2 => (print w2 ("Saved plot to " ++ output_file), Ok tt)
          end
      end
  end.

Definition main (w : world) : world * result unit :=
  if negb (path_exists w data_path)
  then (w, Raise (FileNotFoundError
                    ("Could not find dataset at " ++ data_path)))
  else main_body w.

(** The status the interpreter exits with: 0 when the script runs to its end,
    1 when an exception is not caught. *)
Definition exit_status (r : result unit) : Z :=
  match r with
  | Ok _ => 0
  | Raise _ => 1
  end.

End Main.

(** ** Definitions used to state the properties *)

(** The scenario of three rows in two months. *)
Definition scenario_rows : list row :=
  [ [("Date", "1/15/2020"); ("Open", "$10.00"); ("Close/Last", "$12.00")];
    [("Date", "1/20/2020"); ("Open", "$10.00"); ("Close/Last", "$8.00")];
    [("Date", "2/10/2020"); ("Open", "$20.00"); ("Close/Last", "$25.00")] ].

(** A row whose prices carry [$] signs inside and after the digits. *)
Definition dollar_row : row :=
  [("Date", "1/15/2020"); ("Open", "1$2.50"); ("Close/Last", "$1$3$")].

(** 12.5, as 25 / 2. *)
Definition twelve_and_a_half : float :=
  SFdiv F64.prec F64.emax (F64.of_Z 25) (F64.of_Z 2).

(** 2^54, above which adding or subtracting 1 leaves a float unchanged. *)
Definition two_54 : float := F64.of_Z (2 ^ 54).

Definition huge_flat_points : list monthly_point :=
  [(mkdatetime 2020 1 1, two_54)].

(** A world without the input file, and one that has it, header only. *)
Definition empty_world : world := mkworld [] ["/repo"] [].

Definition header_only_world : world :=
  mkworld [("/repo/HistoricalData_1760090934890.csv", "Date,Close/Last,Open")]
          ["/repo"] [].

(** A reader for the examples: it finds no data rows. *)
Definition no_rows (text : string) : list row := [].

(** The entries of [svg_lines] that belong to the value axis, and to the
    date axis. *)
Definition is_value_tick (l : svg_line) : bool :=
  match l with
  | ValueTickLine _ | ValueTickText _ _ => true
  | _ => false
  end.

Definition is_date_tick (l : svg_line) : bool :=
  match l with
  | DateTickLine _ | DateTickText _ _ => true
  | _ => false
  end.

(** A tick mark and its label: on the value axis for the value [v] drawn at
    height [y], on the date axis for the date [d] drawn at abscissa [x]. *)
Definition value_tick_entries (vy : float * float) : list svg_line :=
  [ValueTickLine (snd vy); ValueTickText (snd vy) (fst vy)].

Definition date_tick_entries (dx : datetime * float) : list svg_line :=
  [DateTickLine (snd dx); DateTickText (snd dx) (fst dx)].

(** The value of tick [i] as the specification has it,
    [min + i * (max - min) / 5]. *)
Definition tick_value (sc : scale) (i : Z) : float :=
  F64.add (min_value sc)
    (SFdiv F64.prec F64.emax
       (F64.mul (F64.of_Z i) (F64.sub (max_value sc) (min_value sc)))
       (F64.of_Z 5)).

(** Months counted from year 0, and the first day of the month [k] months
    after that of [d]. *)
Definition month_index (d : datetime) : Z := 12 * year d + (month d - 1).

Definition add_months (d : datetime) (k : Z) : datetime :=
  let i := month_index d + k in mkdatetime (i / 12) (i mod 12 + 1) 1.

Definition first_of_month (d : datetime) : datetime :=
  mkdatetime (year d) (month d) 1.

(** The first days of the [n] months that start with [first] and go by steps
    of three months. *)
Definition quarter_starts (first : datetime) (n : nat) : list datetime :=
  map (fun k => add_months first (3 * Z.of_nat k)) (seq 0 n).

(** From this day on a date tick has no successor within the range of
    [datetime]. *)
Definition last_quarter_limit : datetime := mkdatetime 9999 10 1.

(** No date tick from [first] on that does not exceed [last] falls in the
    last three months of the year 9999. *)
Definition ticks_in_range (first last : datetime) : Prop :=
  forall k : nat,
    Datetime.leb (add_months first (3 * Z.of_nat k)) last = true ->
    Datetime.ltb (add_months first (3 * Z.of_nat k)) last_quarter_limit = true.

Definition tick_indices : list Z := [0; 1; 2; 3; 4; 5].

(** The entries of [svg_lines] before the circles. *)
Definition svg_head (path_data : string) : list svg_line :=
  [SvgOpen; SvgStyle; Background; AxisFrame; DataPath path_data;
   Title; XAxisLabel; YAxisLabel].

Definition svg_circles (scaled_points : list (float * float))
    (points : list monthly_point) : list svg_line :=
  map (fun '((x, y), _) => Circle x y) (combine scaled_points points).

(** One point with the value 1 in October 9999. *)
Definition last_quarter_points : list monthly_point :=
  [(mkdatetime 9999 10 1, F64.of_Z 1)].

(** The two monthly points of the scenario, and their extrema. *)
Definition scenario_points : list monthly_point :=
  [(mkdatetime 2020 1 1, F64.zero); (mkdatetime 2020 2 1, F64.of_Z 5)].

Definition scenario_scale : scale :=
  mkscale (mkdatetime 2020 1 1) (mkdatetime 2020 2 1) F64.zero (F64.of_Z 5).

(** The month of a price row, and its difference [close - open]. *)
Definition row_date (r : price_row) : datetime := fst (fst r).

Definition row_key (r : price_row) : month_key :=
  (year (row_date r), month (row_date r)).

Definition row_diff (r : price_row) : float :=
  F64.sub (snd r) (snd (fst r)).

(** The differences of the rows of one month, in the order of the rows. *)
Definition diffs_of (key : month_key) (rows : list price_row) : list float :=
  map row_diff (filter (fun r => key_eqb (row_key r) key) rows).

(** [sum(diffs) / len(diffs)] where the division does not raise. *)
Definition average (diffs : list float) : float :=
  SFdiv F64.prec F64.emax (py_sum diffs)
        (F64.of_Z (Z.of_nat (List.length diffs))).

Definition key_date (key : month_key) : datetime :=
  mkdatetime (fst key) (snd key) 1.

Definition date_key (d : datetime) : month_key := (year d, month d).

Fixpoint dict_lookup (key : month_key)
    (grouped : list (month_key * list float)) : list float :=
  match grouped with
  | [] => []
  | (k, vs) :: rest => if key_eqb k key then vs else dict_lookup key rest
  end.

(** Dates in strictly ascending order. *)
Definition ascending (dates : list datetime) : Prop :=
  StronglySorted (fun a b => Datetime.ltb a b = true) dates.

(** The float a text denotes. *)
Definition float_of_text (s : string) : float :=
  match FloatStr.py_float s with
  | Ok x => x
  | Raise _ => F64.nan
  end.

(** Three rows of one month whose differences are 1e308, 1e308 and -1e308,
    and the same rows with the last two exchanged. *)
Definition big : float := float_of_text "1e308".

Definition up_row : price_row := (mkdatetime 2020 1 15, F64.zero, big).
Definition down_row : price_row := (mkdatetime 2020 1 15, big, F64.zero).

Definition overflow_rows : list price_row := [up_row; up_row; down_row].
Definition overflow_rows_shuffled : list price_row :=
  [up_row; down_row; up_row].

(** Three rows of two months, the later month first. *)
Definition unordered_rows : list price_row :=
  [(mkdatetime 2020 2 10, F64.of_Z 20, F64.of_Z 25);
   (mkdatetime 2020 1 15, F64.of_Z 10, F64.of_Z 12);
   (mkdatetime 2020 1 20, F64.of_Z 10, F64.of_Z 8)].

Definition reordered_rows : list price_row :=
  [(mkdatetime 2020 1 15, F64.of_Z 10, F64.of_Z 12);
   (mkdatetime 2020 2 10, F64.of_Z 20, F64.of_Z 25);
   (mkdatetime 2020 1 20, F64.of_Z 10, F64.of_Z 8)].

(** A result that is not the exhaustion of the fuel of the date loop. *)
Definition fuel_left {A : Type} (r : result A) : Prop :=
  match r with
  | Raise OutOfFuel => False
  | _ => True
  end.

(** [sum(xs)] on floats as CPython computes it from version 3.12 on: the
    first float is added to the start value 0, and from then on a
    compensation term is carried along (Neumaier's summation), and added at
    the end when it is neither zero nor infinite nor a NaN. *)
Definition compensated_step (st : float * float) (x : float) : float * float :=
  let '(f, c) := st in
  let t := F64.add f x in
  if SFleb (SFabs x) (SFabs f)
  then (t, F64.add c (F64.add (F64.sub f t) x))
  else (t, F64.add c (F64.add (F64.sub x t) f)).

Definition is_finite (x : float) : bool :=
  match x with
  | S754_zero _ | S754_finite _ _ _ => true
  | _ => false
  end.

Definition py_sum_compensated (xs : list float) : float :=
  match xs with
  | [] => F64.zero
  | x :: rest =>
      let '(f, c) :=
        fold_left compensated_step rest (F64.add F64.zero x, F64.zero) in
      if negb (F64.is_zero c) && is_finite c then F64.add f c else f
  end.

(** ** Definitions used to state further properties *)

(** A row whose opening price is not a number, and a row after it. *)
Definition malformed_row : row :=
  [("Date", "2/11/2020"); ("Open", "n/a"); ("Close/Last", "$25.00")].

Definition later_row : row :=
  [("Date", "2/12/2020"); ("Open", "$21.00"); ("Close/Last", "$22.00")].

(** Two price rows of the same month with the same prices. *)
Definition same_month_and_prices (r r' : price_row) : Prop :=
  year (row_date r) = year (row_date r')
  /\ month (row_date r) = month (row_date r')
  /\ snd (fst r) = snd (fst r') /\ snd r = snd r'.

(** The rows of [unordered_rows], each on another day of its month. *)
Definition unordered_rows_other_days : list price_row :=
  [(mkdatetime 2020 2 1, F64.of_Z 20, F64.of_Z 25);
   (mkdatetime 2020 1 31, F64.of_Z 10, F64.of_Z 12);
   (mkdatetime 2020 1 2, F64.of_Z 10, F64.of_Z 8)].

(** The ends of the two axes on the canvas. *)
Definition x_left : float := F64.of_Z MARGIN_LEFT.
Definition x_right : float := F64.of_Z (SVG_WIDTH - MARGIN_RIGHT).
Definition y_top : float := F64.of_Z MARGIN_TOP.
Definition y_bottom : float := F64.of_Z (SVG_HEIGHT - MARGIN_BOTTOM).

(** The scaled point of a monthly point. *)
Definition scaled_as (sc : scale) (p : monthly_point) (s : float * float)
  : Prop :=
  date_to_x sc (fst p) = Ok (fst s) /\ value_to_y sc (snd p) = Ok (snd s).

Definition is_circle (l : svg_line) : bool :=
  match l with
  | Circle _ _ => true
  | _ => false
  end.

Definition circle_of (xy : float * float) : svg_line :=
  Circle (fst xy) (snd xy).

(** The text of one point of the data path, [x,y] with two decimals. *)
Definition path_point (xy : float * float) : string :=
  FloatStr.format_2f (fst xy) ++ "," ++ FloatStr.format_2f (snd xy).

(** The extrema of [huge_flat_points]: the widening by 1 is lost. *)
Definition huge_flat_scale : scale :=
  mkscale (mkdatetime 2020 1 1) (mkdatetime 2020 1 1) two_54 two_54.

(** A world with an input file, and a reader that finds the two months of
    the scenario in it. *)
Definition scenario_world : world :=
  mkworld [("/repo/HistoricalData_1760090934890.csv", "Date,Close/Last,Open")]
          ["/repo"] [].

Definition scenario_reader (text : string) : list row := scenario_rows.

(** ** Definitions for the revised statements *)

(** A field with every [$] deleted, as the specification of the reader has
    it: the characters of the field other than [$], in their order. *)
Definition without_dollars (field : string) : string :=
  string_of_list_ascii
    (filter (fun c => negb (Ascii.eqb c "$")) (list_ascii_of_string field)).

(** The text of a column with every [$] deleted; a missing column raises. *)
Definition column_without_dollars (r : row) (key : string) : result string :=
  field <- row_get r key ;; Ok (without_dollars field).

(** Two rows with the same date text whose prices differ by [$] characters
    only. *)
Definition same_up_to_dollars (r r' : row) : Prop :=
  row_get r "Date" = row_get r' "Date"
  /\ column_without_dollars r "Open" = column_without_dollars r' "Open"
  /\ column_without_dollars r "Close/Last"
     = column_without_dollars r' "Close/Last".

(** The row of [dollar_row] without any [$]. *)
Definition plain_row : row :=
  [("Date", "1/15/2020"); ("Open", "12.50"); ("Close/Last", "13")].





(** Two points with the values -10^16 and 1: their difference rounds to
    10^16. *)
Definition uneven_points : list monthly_point :=
  [(mkdatetime 2020 1 1, F64.of_Z (- 10 ^ 16));
   (mkdatetime 2020 2 1, F64.of_Z 1)].

Definition uneven_scale : scale :=
  mkscale (mkdatetime 2020 1 1) (mkdatetime 2020 2 1)
          (F64.of_Z (- 10 ^ 16)) (F64.of_Z 1).



(** * Properties *)

(** ** Floats *)

Module F64Facts.



Lemma compare_refl (a : float) :
  a <> S754_nan -> SFcompare a a = Some Eq.
Proof.
  destruct a as [s|s| |s m e]; simpl; intros H; try congruence.
  - destruct s; reflexivity.
  - destruct s; rewrite Z.compare_refl;
      change (Pos.compare_cont Eq m m) with (Pos.compare m m);
      rewrite Pos.compare_refl; reflexivity.
Qed.









End F64Facts.

Module RoundFacts.

Lemma digits2_size (p : positive) : digits2_pos p = Pos.size p.
Proof. induction p; simpl; congruence. Qed.

Lemma Zdigits2_pos (m : Z) : 0 < m -> 0 < Zdigits2 m.
Proof. destruct m; simpl; lia. Qed.

Lemma Zdigits2_lower (m : Z) : 0 < m -> 2 ^ (Zdigits2 m - 1) <= m.
Proof.
  destruct m as [|p|p]; try lia. intros _.
  change (Zdigits2 (Zpos p)) with (Zpos (digits2_pos p)).
  rewrite digits2_size.
  pose proof (Pos.size_le p) as H.
  assert (H' : 2 ^ Zpos (Pos.size p) <= 2 * Zpos p).
  { change (2 * Zpos p) with (Zpos p~0).
    change 2 with (Zpos 2). rewrite <- Pos2Z.inj_pow. exact H. }
  set (k := Zpos (Pos.size p) - 1).
  replace (Zpos (Pos.size p)) with (Z.succ k) in H' by (unfold k; lia).
  rewrite Z.pow_succ_r in H' by (unfold k; lia). lia.
Qed.

Lemma shr_1_m (mrs : shr_record) :
  0 <= shr_m mrs -> shr_m (shr_1 mrs) = shr_m mrs / 2.
Proof.
  destruct mrs as [m r s]; simpl. intros Hm.
  destruct m as [|[p|p|]|p]; try lia; cbn [shr_m]; try reflexivity.
  - apply Z.div_unique with (r := 1); lia.
  - apply Z.div_unique with (r := 0); lia.
Qed.

Lemma iter_shr_1_m (p : positive) :
  forall mrs, 0 <= shr_m mrs ->
    shr_m (iter_pos shr_1 p mrs) = shr_m mrs / 2 ^ Zpos p.
Proof.
  induction p as [p IH|p IH|]; intros mrs Hm; simpl iter_pos.
  - assert (H1 : 0 <= shr_m (shr_1 mrs)).
    { rewrite shr_1_m by assumption. apply Z.div_pos; lia. }
    assert (H2 : 0 <= shr_m (iter_pos shr_1 p (shr_1 mrs))).
    { rewrite IH by assumption. apply Z.div_pos; [assumption|]. apply Z.pow_pos_nonneg; lia. }
    rewrite IH, IH, shr_1_m by assumption.
    rewrite !Z.div_div by (try apply Z.pow_pos_nonneg; lia).
    f_equal. change 2 with (2 ^ 1) at 1.
    rewrite <- !Z.pow_add_r by lia. f_equal. lia.
  - assert (H2 : 0 <= shr_m (iter_pos shr_1 p mrs)).
    { rewrite IH by assumption. apply Z.div_pos; [assumption|]. apply Z.pow_pos_nonneg; lia. }
    rewrite IH, IH by assumption.
    rewrite !Z.div_div by (try apply Z.pow_pos_nonneg; lia).
    f_equal. rewrite <- Z.pow_add_r by lia. f_equal. lia.
  - rewrite shr_1_m by assumption. reflexivity.
Qed.

Lemma shr_m_of_loc (m : Z) (l : location) : shr_m (shr_record_of_loc m l) = m.
Proof. destruct l as [|[| |]]; reflexivity. Qed.

(** Shifting out fewer bits than the number has leaves a positive number. *)
Lemma shr_positive (mrs : shr_record) (e n : Z) :
  0 < shr_m mrs -> n < Zdigits2 (shr_m mrs) ->
  0 < shr_m (fst (shr mrs e n)) /\ e <= snd (shr mrs e n).
Proof.
  intros Hm Hn. unfold shr. destruct n as [|p|p]; simpl; try lia.
  rewrite iter_shr_1_m by lia. split; [|lia].
  pose proof (Zdigits2_lower _ Hm) as Hd.
  assert (Hp : 2 ^ Zpos p <= 2 ^ (Zdigits2 (shr_m mrs) - 1))
    by (apply Z.pow_le_mono_r; lia).
  apply Z.div_str_pos. split; [apply Z.pow_pos_nonneg; lia | lia].
Qed.

Lemma shr_fexp_positive (m e : Z) (l : location) :
  0 < m -> emin F64.prec F64.emax <= e ->
  0 < shr_m (fst (shr_fexp F64.prec F64.emax m e l))
  /\ e <= snd (shr_fexp F64.prec F64.emax m e l).
Proof.
  intros Hm He. unfold shr_fexp. apply shr_positive.
  - now rewrite shr_m_of_loc.
  - rewrite shr_m_of_loc. pose proof (Zdigits2_pos _ Hm).
    unfold fexp, emin, F64.prec, F64.emax in *. lia.
Qed.

Lemma round_nearest_even_ge (m : Z) (l : location) :
  m <= round_nearest_even m l.
Proof. destruct l as [|[| |]]; simpl; try lia. destruct (Z.even m); lia. Qed.

Lemma binary_round_aux_nonzero (s : bool) (m e : Z) (l : location) :
  0 < m -> emin F64.prec F64.emax <= e ->
  F64.is_zero (binary_round_aux F64.prec F64.emax s m e l) = false.
Proof.
  intros Hm He. unfold binary_round_aux.
  destruct (shr_fexp_positive m e l Hm He) as [H1 H2].
  destruct (shr_fexp F64.prec F64.emax m e l) as [mrs' e']; simpl in H1, H2.
  pose proof (round_nearest_even_ge (shr_m mrs') (loc_of_shr_record mrs')) as Hr.
  destruct (shr_fexp_positive
              (round_nearest_even (shr_m mrs') (loc_of_shr_record mrs'))
              e' loc_Exact) as [H3 _]; [lia|lia|].
  destruct (shr_fexp F64.prec F64.emax _ e' loc_Exact) as [mrs'' e''].
  simpl in H3. destruct (shr_m mrs''); try lia.
  destruct (e'' <=? F64.emax - F64.prec); reflexivity.
Qed.

Lemma binary_round_nonzero (s : bool) (m : positive) :
  F64.is_zero (binary_round F64.prec F64.emax s m 0) = false.
Proof.
  unfold binary_round, shl_align.
  set (t := fexp F64.prec F64.emax (Zpos (digits2_pos m) + 0)).
  assert (Ht : emin F64.prec F64.emax <= t)
    by (unfold t, fexp; lia).
  destruct (t - 0) eqn:Hd; apply binary_round_aux_nonzero; try lia;
    unfold emin, F64.prec, F64.emax; lia.
Qed.

(** An int that is not 0 converts to a float that is not zero. *)
Lemma of_Z_nonzero (n : Z) : n <> 0 -> F64.is_zero (F64.of_Z n) = false.
Proof.
  intros Hn. unfold F64.of_Z, binary_normalize.
  destruct n; [congruence | apply binary_round_nonzero ..].
Qed.

End RoundFacts.

(** ** Results *)

Lemma bind_ok {A B : Type} (r : result A) (k : A -> result B) (b : B) :
  bind r k = Ok b -> exists a, r = Ok a /\ k a = Ok b.
Proof. destruct r as [a|e]; simpl; [eauto | discriminate]. Qed.

(** Inversion of a chain of binds that ends in [Ok]. *)
Ltac bind_inv H :=
  let a := fresh "a" in
  let Ha := fresh "Ha" in
  apply bind_ok in H; destruct H as (a & Ha & H).

Tactic Notation "bind_inv" hyp(H) "as" ident(a) ident(Ha) :=
  apply bind_ok in H; destruct H as (a & Ha & H).

Lemma map_result_pointwise {A B : Type} (f : A -> result B) (g : A -> B)
    (xs : list A) :
  (forall x, In x xs -> f x = Ok (g x)) -> map_result f xs = Ok (map g xs).
Proof.
  induction xs as [|x xs IH]; intros H; simpl; [reflexivity|].
  rewrite (H x) by (left; reflexivity). simpl.
  rewrite IH by (intros; apply H; now right). reflexivity.
Qed.

Lemma map_result_length {A B : Type} (f : A -> result B) (xs : list A)
    (ys : list B) :
  map_result f xs = Ok ys -> List.length ys = List.length xs.
Proof.
  revert ys. induction xs as [|x xs IH]; simpl; intros ys H.
  - now inversion H.
  - bind_inv H as y Hy. bind_inv H as ys' Hys.
    injection H as <-. simpl. f_equal. now apply IH.
Qed.

Lemma map_result_raise {A B : Type} (f : A -> result B) (xs : list A)
    (x : A) (e : exn) :
  f x = Raise e -> map_result f (x :: xs) = Raise e.
Proof. intros H. simpl. now rewrite H. Qed.

(** ** The reader *)

Lemma remove_char_chars (old : ascii) (s : string) :
  list_ascii_of_string (Str.remove_char old s)
  = filter (fun c => negb (Ascii.eqb c old)) (list_ascii_of_string s).
Proof.
  induction s as [|c s IH]; simpl; [reflexivity|].
  destruct (Ascii.eqb c old); simpl; [assumption | now rewrite IH].
Qed.

Lemma remove_char_absent (old : ascii) (s : string) :
  ~ In old (list_ascii_of_string (Str.remove_char old s)).
Proof.
  rewrite remove_char_chars. intros H. apply filter_In in H as [_ H].
  now rewrite Ascii.eqb_refl in H.
Qed.

Lemma remove_char_without_dollars (field : string) :
  Str.remove_char "$" field = without_dollars field.
Proof.
  unfold without_dollars. rewrite <- remove_char_chars.
  now rewrite string_of_list_ascii_of_string.
Qed.

(** What [read_price_row] does with the three columns of any row: the date
    is read from the text of [Date], and each price from the text of its
    column with every [$] deleted. *)
Lemma read_price_row_without_dollars (r : row) :
  read_price_row r
  = (date_text <- row_get r "Date" ;;
     date <- Datetime.strptime_mdY date_text ;;
     open_text <- column_without_dollars r "Open" ;;
     open_price <- FloatStr.py_float open_text ;;
     close_text <- column_without_dollars r "Close/Last" ;;
     close_price <- FloatStr.py_float close_text ;;
     Ok (date, open_price, close_price)).
Proof.
  unfold read_price_row, column_without_dollars.
  destruct (row_get r "Date") as [date_text|e]; [|reflexivity]. cbn [bind].
  destruct (Datetime.strptime_mdY date_text) as [date|e]; [|reflexivity].
  cbn [bind].
  destruct (row_get r "Open") as [open_text|e]; [|reflexivity]. cbn [bind].
  rewrite remove_char_without_dollars.
  destruct (FloatStr.py_float (without_dollars open_text)) as [o|e];
    [|reflexivity].
  cbn [bind].
  destruct (row_get r "Close/Last") as [close_text|e]; [|reflexivity].
  cbn [bind]. now rewrite remove_char_without_dollars.
Qed.

Lemma read_price_row_same_up_to_dollars (r r' : row) :
  same_up_to_dollars r r' -> read_price_row r = read_price_row r'.
Proof.
  intros (Hd & Ho & Hc). rewrite !read_price_row_without_dollars.
  now rewrite Hd, Ho, Hc.
Qed.

(** C10: [read_price_rows] removes every [$] of the Open and Close/Last
    fields, wherever it stands, before the number is read.  What the
    replacement leaves has no [$] and is the field without its [$]
    characters.  For every row, each price is the number [float] reads from
    the text of its column with every [$] deleted; so a price that is
    returned is the number of that text, and rows that differ only by [$]
    characters in these two columns are read alike, whole files of them
    too.  Thus ["1$2.50"], which [float] rejects as it stands, is read as
    12.5. *)
Theorem read_price_rows_removes_every_dollar :
  (forall field : string,
      ~ In "$"%char (list_ascii_of_string (Str.remove_char "$" field))
      /\ list_ascii_of_string (Str.remove_char "$" field)
         = filter (fun c => negb (Ascii.eqb c "$"))
                  (list_ascii_of_string field))
  /\ (forall r : row,
        read_price_row r
        = (date_text <- row_get r "Date" ;;
           date <- Datetime.strptime_mdY date_text ;;
           open_text <- column_without_dollars r "Open" ;;
           open_price <- FloatStr.py_float open_text ;;
           close_text <- column_without_dollars r "Close/Last" ;;
           close_price <- FloatStr.py_float close_text ;;
           Ok (date, open_price, close_price)))
  /\ (forall (r : row) (date : datetime) (open_price close_price : float),
        read_price_row r = Ok (date, open_price, close_price) ->
        exists open_text close_text,
          row_get r "Open" = Ok open_text
          /\ row_get r "Close/Last" = Ok close_text
          /\ FloatStr.py_float (without_dollars open_text) = Ok open_price
          /\ FloatStr.py_float (without_dollars close_text) = Ok close_price)
  /\ (forall rows rows' : list row,
        Forall2 same_up_to_dollars rows rows' ->
        read_price_rows rows = read_price_rows rows')
  /\ FloatStr.py_float "1$2.50" = Raise ValueError
  /\ FloatStr.py_float (Str.remove_char "$" "1$2.50") = Ok twelve_and_a_half
  /\ read_price_rows [dollar_row]
     = Ok [(mkdatetime 2020 1 15, twelve_and_a_half, F64.of_Z 13)].
Proof.
  split.
  { intros field. split; [apply remove_char_absent | apply remove_char_chars]. }
  split; [exact read_price_row_without_dollars|].
  split.
  { intros r date open_price close_price H. unfold read_price_row in H.
    bind_inv H as date_text Hdt. bind_inv H as date' Hdate.
    bind_inv H as open_text Hot. bind_inv H as o Ho.
    bind_inv H as close_text Hct. bind_inv H as c Hc.
    injection H as <- <- <-. rewrite remove_char_without_dollars in Ho, Hc.
    exists open_text, close_text. auto. }
  split.
  { intros rows rows' H. unfold read_price_rows.
    induction H as [|r r' rows rows' Hr _ IH]; [reflexivity|].
    cbn [map_result].
    now rewrite (read_price_row_same_up_to_dollars r r' Hr), IH. }
  repeat split; vm_compute; reflexivity.
Qed.

Lemma read_price_rows_removes_every_dollar_witness :
  (exists open_text close_text,
      row_get dollar_row "Open" = Ok open_text
      /\ row_get dollar_row "Close/Last" = Ok close_text
      /\ FloatStr.py_float (without_dollars open_text) = Ok twelve_and_a_half
      /\ FloatStr.py_float (without_dollars close_text) = Ok (F64.of_Z 13))
  /\ read_price_rows [dollar_row; dollar_row]
     = read_price_rows [plain_row; dollar_row].
Proof.
  destruct read_price_rows_removes_every_dollar
    as (_ & _ & Hreturned & Hsame & _).
  split.
  - apply (Hreturned dollar_row (mkdatetime 2020 1 15)).
    vm_compute. reflexivity.
  - apply Hsame. repeat constructor.
Defined.

(** ** The scenario of the specification *)

(** C3: the three rows of 15 and 20 January and 10 February 2020 are read and
    aggregated to the two points (2020-01, 0.0) and (2020-02, 5.0), the
    earlier month first. *)
Theorem scenario_monthly_average :
  (rows <- read_price_rows scenario_rows ;; compute_monthly_average_diff rows)
  = Ok [(mkdatetime 2020 1 1, F64.zero); (mkdatetime 2020 2 1, F64.of_Z 5)]
  /\ Datetime.ltb (mkdatetime 2020 1 1) (mkdatetime 2020 2 1) = true.
Proof. split; vm_compute; reflexivity. Qed.

(** ** Empty input *)

(** C1 (the code departs from the claim): a file with only a header gives no
    rows and no monthly points, and on no points [scale_points], and with it
    [build_svg], raises ValueError at [min(dates)] instead of returning a
    chart with the axis frame. *)
Theorem build_svg_empty_raises :
  read_price_rows [] = Ok []
  /\ compute_monthly_average_diff [] = Ok []
  /\ scale_points [] = Raise ValueError
  /\ build_svg [] = Raise ValueError.
Proof. repeat split; reflexivity. Qed.

(** ** The check of the input path *)

(** C9: when the input path does not exist, [main] raises FileNotFoundError
    with a message that names the path; the world is left as it was (nothing
    is read, created, written or printed), whatever the reader would have
    yielded, and the interpreter exits with status 1.  When the path exists
    the check changes nothing: [main] is the rest of its body. *)
Theorem main_checks_input_path
    (repo_root : string) (csv_rows : string -> list row) (w : world) :
  (path_exists w (data_path repo_root) = false ->
   main repo_root csv_rows w
   = (w, Raise (FileNotFoundError
                  ("Could not find dataset at " ++ data_path repo_root)))
   /\ exit_status (snd (main repo_root csv_rows w)) = 1
   /\ forall other_rows : string -> list row,
        main repo_root other_rows w = main repo_root csv_rows w)
  /\ (path_exists w (data_path repo_root) = true ->
      main repo_root csv_rows w = main_body repo_root csv_rows w).
Proof.
  unfold main. split; intros ->; simpl; auto.
Qed.

Lemma main_checks_input_path_witness :
  (main "/repo" no_rows empty_world
   = (empty_world,
      Raise (FileNotFoundError
               ("Could not find dataset at " ++ data_path "/repo")))
   /\ exit_status (snd (main "/repo" no_rows empty_world)) = 1
   /\ forall other_rows : string -> list row,
        main "/repo" other_rows empty_world = main "/repo" no_rows empty_world)
  /\ main "/repo" no_rows header_only_world
     = main_body "/repo" no_rows header_only_world.
Proof.
  split.
  - apply (proj1 (main_checks_input_path "/repo" no_rows empty_world)).
    reflexivity.
  - apply (proj2 (main_checks_input_path "/repo" no_rows header_only_world)).
    reflexivity.
Defined.

(** ** The scaler *)



Lemma py_min_dates_ok (p : monthly_point) (points : list monthly_point) :
  exists d, py_min Datetime.ltb (map fst (p :: points)) = Ok d.
Proof. simpl. eauto. Qed.


Lemma scale_points_scale (points : list monthly_point)
    (scaled : list (float * float)) (sc : scale) :
  scale_points points = Ok (scaled, sc) ->
  extrema points = Ok sc /\ map_result (scale_point sc) points = Ok scaled.
Proof.
  unfold scale_points. intros H. bind_inv H as sc' Hsc.
  bind_inv H as scaled' Hs. injection H as <- <-. auto.
Qed.

(** For one point the day span is 0 and is replaced by 1: the x coordinate
    is the left margin. *)
Lemma date_to_x_single (d : datetime) (lo hi : float) :
  date_to_x (mkscale d d lo hi) d = Ok (F64.of_Z MARGIN_LEFT).
Proof.
  unfold date_to_x, Datetime.days_between. cbn [min_date max_date].
  rewrite Z.sub_diag. reflexivity.
Qed.

(** C6 (the code departs from the claim): for one point the day span
    defaults to 1, so that [date_to_x] divides by 1; but the value span is
    zero again when the value is so large that adding and subtracting 1 do
    not change it, and [scale_points] then raises ZeroDivisionError: here for
    the value 2^54. *)
Theorem scale_points_single_point_zero_span :
  (forall (d : datetime) (v : float),
      exists lo hi,
        extrema [(d, v)] = Ok (mkscale d d lo hi)
        /\ date_to_x (mkscale d d lo hi) d = Ok (F64.of_Z MARGIN_LEFT))
  /\ extrema huge_flat_points
     = Ok (mkscale (mkdatetime 2020 1 1) (mkdatetime 2020 1 1) two_54 two_54)
  /\ value_to_y
       (mkscale (mkdatetime 2020 1 1) (mkdatetime 2020 1 1) two_54 two_54)
       two_54
     = Raise ZeroDivisionError
  /\ scale_points huge_flat_points = Raise ZeroDivisionError.
Proof.
  split; [|repeat split; vm_compute; reflexivity].
  intros d v. unfold extrema. cbn [map fst snd py_min py_max fold_left bind].
  destruct (widen v v) as [lo hi]. exists lo, hi.
  split; [reflexivity | apply date_to_x_single].
Qed.

(** ** Dates *)

Module DateFacts.

Lemma valid_fields (d : datetime) :
  Datetime.valid d = true ->
  1 <= year d <= 9999 /\ 1 <= month d <= 12
  /\ 1 <= day d <= Datetime.days_in_month (year d) (month d).
Proof.
  unfold Datetime.valid. rewrite !andb_true_iff, !Z.leb_le. lia.
Qed.

Lemma days_in_month_ge (y m : Z) :
  1 <= m <= 12 -> 28 <= Datetime.days_in_month y m.
Proof.
  intros Hm. unfold Datetime.days_in_month.
  destruct ((m =? 2) && Datetime.is_leap y); [lia|].
  assert (H : m = 1 \/ m = 2 \/ m = 3 \/ m = 4 \/ m = 5 \/ m = 6 \/ m = 7
              \/ m = 8 \/ m = 9 \/ m = 10 \/ m = 11 \/ m = 12) by lia.
  repeat (destruct H as [-> | H]; [simpl; lia|]). subst. simpl. lia.
Qed.

Lemma make_first_day (y m : Z) :
  1 <= y <= 9999 -> 1 <= m <= 12 ->
  Datetime.make y m 1 = Ok (mkdatetime y m 1).
Proof.
  intros Hy Hm. unfold Datetime.make, Datetime.valid. cbn [year month day].
  pose proof (days_in_month_ge y m Hm).
  replace (1 <=? y) with true by (symmetry; apply Z.leb_le; lia).
  replace (y <=? 9999) with true by (symmetry; apply Z.leb_le; lia).
  replace (1 <=? m) with true by (symmetry; apply Z.leb_le; lia).
  replace (m <=? 12) with true by (symmetry; apply Z.leb_le; lia).
  replace (1 <=? Datetime.days_in_month y m) with true
    by (symmetry; apply Z.leb_le; lia).
  reflexivity.
Qed.

Lemma valid_first_day (y m : Z) :
  1 <= y <= 9999 -> 1 <= m <= 12 -> Datetime.valid (mkdatetime y m 1) = true.
Proof.
  intros Hy Hm. pose proof (make_first_day y m Hy Hm) as H.
  unfold Datetime.make in H.
  destruct (Datetime.valid (mkdatetime y m 1)); [reflexivity | discriminate].
Qed.

Lemma ltb_spec (a b : datetime) :
  Datetime.ltb a b = true <->
  year a < year b
  \/ (year a = year b
      /\ (month a < month b \/ (month a = month b /\ day a < day b))).
Proof.
  unfold Datetime.ltb.
  rewrite !orb_true_iff, !andb_true_iff, !orb_true_iff, !andb_true_iff,
    !Z.ltb_lt, !Z.eqb_eq.
  tauto.
Qed.

Lemma eqb_spec (a b : datetime) :
  Datetime.eqb a b = true <->
  year a = year b /\ month a = month b /\ day a = day b.
Proof.
  unfold Datetime.eqb. rewrite !andb_true_iff, !Z.eqb_eq. tauto.
Qed.

Lemma eqb_eq (a b : datetime) : Datetime.eqb a b = true <-> a = b.
Proof.
  rewrite eqb_spec. destruct a, b; simpl. split.
  - intros (-> & -> & ->). reflexivity.
  - intros H. inversion H. auto.
Qed.

Lemma leb_spec (a b : datetime) :
  Datetime.leb a b = true <->
  year a < year b
  \/ (year a = year b
      /\ (month a < month b \/ (month a = month b /\ day a <= day b))).
Proof.
  unfold Datetime.leb. rewrite orb_true_iff, ltb_spec, eqb_spec. lia.
Qed.

Lemma leb_false (a b : datetime) :
  Datetime.leb a b = false <-> Datetime.ltb b a = true.
Proof.
  rewrite <- not_true_iff_false, leb_spec, ltb_spec. lia.
Qed.

Lemma ltb_false (a b : datetime) :
  Datetime.ltb a b = false <-> Datetime.leb b a = true.
Proof.
  rewrite <- not_true_iff_false, leb_spec, ltb_spec. lia.
Qed.

Lemma ltb_trans (a b c : datetime) :
  Datetime.ltb a b = true -> Datetime.ltb b c = true ->
  Datetime.ltb a c = true.
Proof. rewrite !ltb_spec. lia. Qed.

Lemma ltb_irrefl (a : datetime) : Datetime.ltb a a = false.
Proof. rewrite <- not_true_iff_false, ltb_spec. lia. Qed.

(** Trichotomy: of two different dates one is before the other. *)
Lemma ltb_total (a b : datetime) :
  a <> b -> Datetime.ltb a b = false -> Datetime.ltb b a = true.
Proof.
  intros Hne Hlt. apply leb_false. rewrite <- not_true_iff_false.
  intros Hle. apply Hne, eqb_eq, eqb_spec.
  apply ltb_false, leb_spec in Hlt. apply leb_spec in Hle. lia.
Qed.

Lemma month_index_add_months (d : datetime) (k : Z) :
  month_index (add_months d k) = month_index d + k.
Proof.
  unfold add_months, month_index. cbn [year month].
  Z.div_mod_to_equations. lia.
Qed.

Lemma add_months_add (d : datetime) (a b : Z) :
  add_months (add_months d a) b = add_months d (a + b).
Proof.
  unfold add_months at 1 3. rewrite month_index_add_months.
  now rewrite Z.add_assoc.
Qed.

Lemma add_months_0 (d : datetime) :
  1 <= month d <= 12 -> day d = 1 -> add_months d 0 = d.
Proof.
  intros Hm Hd. unfold add_months, month_index. destruct d as [y m dd].
  cbn [year month day] in *. subst dd. f_equal; Z.div_mod_to_equations; lia.
Qed.

(** The step of the date loop: three months on, as long as the year stays
    in range. *)
Lemma next_quarter_ok (d : datetime) :
  Datetime.valid d = true -> day d = 1 ->
  Datetime.ltb d last_quarter_limit = true ->
  next_quarter d = Ok (add_months d 3)
  /\ Datetime.valid (add_months d 3) = true.
Proof.
  intros Hv Hd Hl. apply valid_fields in Hv as (Hy & Hm & _).
  apply ltb_spec in Hl. cbn [year month day last_quarter_limit] in Hl.
  assert (Hn : next_quarter d = Ok (add_months d 3)).
  { unfold next_quarter, add_months, month_index.
    destruct (Z.leb_spec 10 (month d)) as [H10|H10].
    - rewrite make_first_day; [|lia|Z.div_mod_to_equations; lia].
      do 2 f_equal; Z.div_mod_to_equations; lia.
    - rewrite make_first_day by lia.
      do 2 f_equal; Z.div_mod_to_equations; lia. }
  split; [exact Hn|].
  unfold next_quarter in Hn. unfold Datetime.make in Hn.
  destruct (10 <=? month d);
    match type of Hn with
    | (if Datetime.valid ?x then _ else _) = _ =>
        destruct (Datetime.valid x) eqn:Hx; [|discriminate];
        replace (add_months d 3) with x by congruence; exact Hx
    end.
Qed.

End DateFacts.

(** ** The renderer *)

Lemma fold_pick_In {A : Type} (pick : A -> A -> bool) (rest : list A) (x : A) :
  In (fold_left (fun cur item => if pick cur item then item else cur) rest x)
     (x :: rest).
Proof.
  revert x. induction rest as [|y rest IH]; intros x; simpl; [auto|].
  destruct (pick x y).
  - destruct (IH y) as [H|H]; [right; left; exact H | right; right; exact H].
  - destruct (IH x) as [H|H]; [left; exact H | right; right; exact H].
Qed.

Lemma py_min_In {A : Type} (lt : A -> A -> bool) (xs : list A) (m : A) :
  py_min lt xs = Ok m -> In m xs.
Proof.
  destruct xs as [|x rest]; simpl; [discriminate|]. intros H.
  injection H as <-.
  exact (fold_pick_In (fun cur item => lt item cur) rest x).
Qed.

Lemma py_max_In {A : Type} (lt : A -> A -> bool) (xs : list A) (m : A) :
  py_max lt xs = Ok m -> In m xs.
Proof.
  destruct xs as [|x rest]; simpl; [discriminate|]. intros H.
  injection H as <-.
  exact (fold_pick_In lt rest x).
Qed.

(** The dates [extrema] returns are dates of the points. *)
Lemma extrema_dates (points : list monthly_point) (sc : scale) :
  extrema points = Ok sc ->
  In (min_date sc) (map fst points) /\ In (max_date sc) (map fst points).
Proof.
  unfold extrema. intros H.
  bind_inv H as lo_date Hlo. bind_inv H as hi_date Hhi.
  bind_inv H as lo_value Hlv. bind_inv H as hi_value Hhv.
  destruct (widen lo_value hi_value) as [lo hi]. injection H as <-.
  cbn [min_date max_date].
  split; [eapply py_min_In | eapply py_max_In]; eassumption.
Qed.

Lemma extrema_nonempty (points : list monthly_point) (sc : scale) :
  extrema points = Ok sc -> points <> [].
Proof. intros H ->. discriminate. Qed.

(** [extrema] raises on the empty list only. *)
Lemma extrema_ok (points : list monthly_point) :
  points <> [] -> exists sc, extrema points = Ok sc.
Proof.
  destruct points as [|p points]; [congruence|]. intros _.
  unfold extrema. cbn [map py_min py_max bind].
  destruct (widen _ _) as [lo hi]. eauto.
Qed.

(** [date_to_x] never divides by zero. *)
Lemma date_to_x_ok (sc : scale) (d : datetime) :
  exists x, date_to_x sc d = Ok x.
Proof.
  unfold date_to_x.
  set (days := Datetime.days_between (max_date sc) (min_date sc)).
  set (span := if days =? 0 then 1 else days).
  assert (Hs : (span =? 0) = false).
  { unfold span. destruct (Z.eqb_spec days 0); [reflexivity|].
    now apply Z.eqb_neq. }
  unfold int_truediv. rewrite Hs.
  destruct (Z.abs (Datetime.days_between d (min_date sc))); simpl; eauto.
Qed.

Lemma value_to_y_ok (sc : scale) (v : float) :
  F64.is_zero (F64.sub (max_value sc) (min_value sc)) = false ->
  exists y, value_to_y sc v = Ok y.
Proof.
  intros H. unfold value_to_y, F64.truediv. rewrite H. simpl. eauto.
Qed.

Lemma map_result_exists {A B : Type} (f : A -> result B) (xs : list A) :
  (forall x, In x xs -> exists y, f x = Ok y) ->
  exists ys, map_result f xs = Ok ys.
Proof.
  induction xs as [|x xs IH]; intros H; simpl; [eauto|].
  destruct (H x) as [y Hy]; [now left|]. rewrite Hy.
  destruct IH as [ys Hys]; [intros; apply H; now right|]. rewrite Hys.
  simpl. eauto.
Qed.

Lemma scale_points_ok (points : list monthly_point) (sc : scale) :
  extrema points = Ok sc ->
  F64.is_zero (F64.sub (max_value sc) (min_value sc)) = false ->
  exists scaled, scale_points points = Ok (scaled, sc).
Proof.
  intros Hsc Hspan. unfold scale_points. rewrite Hsc. cbn [bind].
  destruct (map_result_exists (scale_point sc) points) as [scaled Hs].
  - intros p _. unfold scale_point.
    destruct (date_to_x_ok sc (fst p)) as [x ->].
    destruct (value_to_y_ok sc (snd p) Hspan) as [y ->]. simpl. eauto.
  - rewrite Hs. simpl. eauto.
Qed.

(** The six tick values are [min + i * (max - min) / 5] for [i] from 0
    to 5. *)
Lemma value_ticks_eq (sc : scale) :
  value_ticks sc = Ok (map (tick_value sc) [0; 1; 2; 3; 4; 5]).
Proof.
  unfold value_ticks.
  change (map Z.of_nat (seq 0 (Z.to_nat tick_count))) with [0; 1; 2; 3; 4; 5].
  apply map_result_pointwise. intros i _. reflexivity.
Qed.

Lemma value_tick_lines_concat (sc : scale) (ticks : list float)
    (tick_lines : list (list svg_line)) :
  map_result (value_tick_lines sc) ticks = Ok tick_lines ->
  exists ys,
    map_result (value_to_y sc) ticks = Ok ys
    /\ List.concat tick_lines
       = flat_map value_tick_entries (combine ticks ys).
Proof.
  revert tick_lines. induction ticks as [|v ticks IH]; simpl; intros tls H.
  - injection H as <-. exists []. auto.
  - bind_inv H as entries He. bind_inv H as rest Hr. injection H as <-.
    unfold value_tick_lines in He. bind_inv He as y Hy. injection He as <-.
    destruct (IH _ Hr) as (ys & Hys & Hc).
    exists (y :: ys). rewrite Hy, Hys. simpl. rewrite Hc. auto.
Qed.

Lemma filter_value_tick_entries (l : list (float * float)) :
  filter is_value_tick (flat_map value_tick_entries l)
  = flat_map value_tick_entries l.
Proof. induction l as [|p l IH]; simpl; [reflexivity | now rewrite IH]. Qed.

Lemma filter_date_tick_entries (l : list (datetime * float)) :
  filter is_date_tick (flat_map date_tick_entries l)
  = flat_map date_tick_entries l.
Proof. induction l as [|p l IH]; simpl; [reflexivity | now rewrite IH]. Qed.

Lemma filter_value_of_date_entries (l : list (datetime * float)) :
  filter is_value_tick (flat_map date_tick_entries l) = [].
Proof. induction l as [|p l IH]; simpl; [reflexivity | exact IH]. Qed.

Lemma filter_date_of_value_entries (l : list (float * float)) :
  filter is_date_tick (flat_map value_tick_entries l) = [].
Proof. induction l as [|p l IH]; simpl; [reflexivity | exact IH]. Qed.

Lemma filter_circles (keep : svg_line -> bool)
    (l : list (float * float * monthly_point)) :
  (forall x y, keep (Circle x y) = false) ->
  filter keep (map (fun '((x, y), _) => Circle x y) l) = [].
Proof.
  intros Hk. induction l as [|[[x y] p] l IH]; simpl; [reflexivity|].
  now rewrite Hk.
Qed.

Lemma quarter_starts_S (d : datetime) (n : nat) :
  1 <= month d <= 12 -> day d = 1 ->
  quarter_starts d (S n) = d :: quarter_starts (add_months d 3) n.
Proof.
  intros Hm Hd. unfold quarter_starts. cbn [seq map].
  change (3 * Z.of_nat 0) with 0. rewrite DateFacts.add_months_0 by assumption.
  f_equal. rewrite <- seq_shift, map_map. apply map_ext. intros k.
  rewrite DateFacts.add_months_add. f_equal. lia.
Qed.

Lemma ticks_in_range_before (first last : datetime) :
  Datetime.ltb last last_quarter_limit = true -> ticks_in_range first last.
Proof.
  intros Hlim k Hle. apply DateFacts.leb_spec in Hle.
  apply DateFacts.ltb_spec in Hlim. apply DateFacts.ltb_spec. lia.
Qed.

Lemma ticks_in_range_next (current last : datetime) :
  ticks_in_range current last -> ticks_in_range (add_months current 3) last.
Proof.
  intros H k. rewrite DateFacts.add_months_add.
  replace (3 + 3 * Z.of_nat k) with (3 * Z.of_nat (S k)) by lia. apply H.
Qed.

(** The date loop: with fuel for the months up to the latest date it ends,
    and it has put a mark and a label at each third month from [current]
    that does not exceed the latest date. *)
Lemma date_ticks_spec (sc : scale) :
  Datetime.valid (max_date sc) = true ->
  forall (fuel : nat) (current : datetime),
    Datetime.valid current = true -> day current = 1 ->
    ticks_in_range current (max_date sc) ->
    (1 <= fuel)%nat ->
    month_index (max_date sc) - month_index current < 3 * Z.of_nat fuel - 3 ->
    exists (n : nat) (xs : list float),
      date_ticks fuel sc current
      = Ok (flat_map date_tick_entries (combine (quarter_starts current n) xs))
      /\ map_result (date_to_x sc) (quarter_starts current n) = Ok xs
      /\ Forall (fun d => Datetime.leb d (max_date sc) = true)
                (quarter_starts current n)
      /\ Datetime.leb (add_months current (3 * Z.of_nat n)) (max_date sc)
         = false.
Proof.
  intros Hvmax. induction fuel as [|fuel IH]; intros cur Hv Hd Hrange Hf Hm;
    [lia|].
  pose proof (DateFacts.valid_fields _ Hv) as (Hy & Hmo & _).
  cbn [date_ticks].
  destruct (Datetime.leb cur (max_date sc)) eqn:Hle.
  - assert (Hcl : Datetime.ltb cur last_quarter_limit = true).
    { specialize (Hrange O). change (3 * Z.of_nat 0) with 0 in Hrange.
      rewrite DateFacts.add_months_0 in Hrange by assumption. auto. }
    destruct (DateFacts.next_quarter_ok cur Hv Hd Hcl) as [Hn Hvn].
    destruct (date_to_x_ok sc cur) as [x Hx].
    assert (Hidx : month_index cur <= month_index (max_date sc)).
    { pose proof (DateFacts.valid_fields _ Hvmax) as (_ & Hmm & _).
      apply DateFacts.leb_spec in Hle. unfold month_index. lia. }
    destruct (IH (add_months cur 3)) as (n & xs & Hrun & Hxs & Hall & Hstop).
    + exact Hvn.
    + reflexivity.
    + now apply ticks_in_range_next.
    + lia.
    + rewrite DateFacts.month_index_add_months. lia.
    + exists (S n), (x :: xs).
      rewrite quarter_starts_S by assumption.
      rewrite Hx, Hn. cbn [bind]. rewrite Hrun. cbn [bind].
      repeat split.
      * cbn [map_result]. rewrite Hx, Hxs. reflexivity.
      * constructor; assumption.
      * rewrite DateFacts.add_months_add in Hstop.
        replace (3 * Z.of_nat (S n)) with (3 + 3 * Z.of_nat n) by lia.
        exact Hstop.
  - exists O, []. repeat split.
    + constructor.
    + change (3 * Z.of_nat 0) with 0.
      rewrite DateFacts.add_months_0 by assumption. exact Hle.
Qed.

Lemma date_ticks_entries (sc : scale) (fuel : nat) :
  forall (current : datetime) (lines : list svg_line),
    date_ticks fuel sc current = Ok lines ->
    filter is_value_tick lines = [] /\ filter is_date_tick lines = lines.
Proof.
  induction fuel as [|fuel IH]; intros cur lines H; cbn [date_ticks] in H;
    [discriminate|].
  destruct (Datetime.leb cur (max_date sc)).
  - bind_inv H as x Hx. bind_inv H as next_month Hn. bind_inv H as rest Hr.
    injection H as <-.
    destruct (IH _ _ Hr) as [H1 H2]. simpl. rewrite H1, H2. auto.
  - injection H as <-. auto.
Qed.


Lemma filter_value_ticks_lines (path_data : string)
    (scaled : list (float * float)) (points : list monthly_point)
    (ticks : list (float * float)) (date_lines : list svg_line) :
  filter is_value_tick date_lines = [] ->
  filter is_value_tick
    (svg_head path_data ++ svg_circles scaled points
     ++ flat_map value_tick_entries ticks ++ date_lines ++ [SvgClose])%list
  = flat_map value_tick_entries ticks.
Proof.
  intros Hd. rewrite !filter_app, Hd, filter_value_tick_entries.
  unfold svg_circles. rewrite filter_circles by reflexivity.
  simpl. now rewrite app_nil_r.
Qed.

Lemma filter_date_ticks_lines (path_data : string)
    (scaled : list (float * float)) (points : list monthly_point)
    (ticks : list (float * float)) (dates : list (datetime * float)) :
  filter is_date_tick
    (svg_head path_data ++ svg_circles scaled points
     ++ flat_map value_tick_entries ticks
     ++ flat_map date_tick_entries dates ++ [SvgClose])%list
  = flat_map date_tick_entries dates.
Proof.
  rewrite !filter_app, filter_date_tick_entries, filter_date_of_value_entries.
  unfold svg_circles. rewrite filter_circles by reflexivity.
  simpl. now rewrite app_nil_r.
Qed.

Lemma value_tick_lines_ok (sc : scale) (ticks ys : list float) :
  map_result (value_to_y sc) ticks = Ok ys ->
  map_result (value_tick_lines sc) ticks
  = Ok (map value_tick_entries (combine ticks ys)).
Proof.
  revert ys. induction ticks as [|v ticks IH]; intros ys H;
    cbn [map_result] in *.
  - injection H as <-. reflexivity.
  - bind_inv H as y Hy. bind_inv H as ys' Hys'. injection H as <-.
    unfold value_tick_lines at 1. rewrite Hy. cbn [bind].
    rewrite (IH _ Hys'). reflexivity.
Qed.

(** [svg_lines] returns when the value span is not zero and no date tick
    falls in the last three months of 9999, and then holds the six value
    ticks and the quarterly date ticks. *)
Lemma svg_lines_ok (points : list monthly_point) (sc : scale) :
  extrema points = Ok sc ->
  F64.is_zero (F64.sub (max_value sc) (min_value sc)) = false ->
  Forall (fun p => Datetime.valid (fst p) = true) points ->
  ticks_in_range (first_of_month (min_date sc)) (max_date sc) ->
  exists scaled ys n xs,
    map_result (value_to_y sc) (map (tick_value sc) tick_indices) = Ok ys
    /\ map_result (date_to_x sc)
         (quarter_starts (first_of_month (min_date sc)) n) = Ok xs
    /\ Forall (fun d => Datetime.leb d (max_date sc) = true)
              (quarter_starts (first_of_month (min_date sc)) n)
    /\ Datetime.leb (add_months (first_of_month (min_date sc))
                                (3 * Z.of_nat n)) (max_date sc) = false
    /\ svg_lines points
       = Ok (svg_head (path_data_of scaled) ++ svg_circles scaled points
             ++ flat_map value_tick_entries
                  (combine (map (tick_value sc) tick_indices) ys)
             ++ flat_map date_tick_entries
                  (combine (quarter_starts (first_of_month (min_date sc)) n) xs)
             ++ [SvgClose])%list.
Proof.
  intros Hsc Hspan Hvalid Hlim.
  destruct (scale_points_ok _ _ Hsc Hspan) as [scaled Hscaled].
  destruct (extrema_dates _ _ Hsc) as [Hmin Hmax].
  rewrite Forall_forall in Hvalid.
  assert (Hvmin : Datetime.valid (min_date sc) = true).
  { apply in_map_iff in Hmin as (p & <- & Hp). now apply Hvalid. }
  assert (Hvmax : Datetime.valid (max_date sc) = true).
  { apply in_map_iff in Hmax as (p & <- & Hp). now apply Hvalid. }
  pose proof (DateFacts.valid_fields _ Hvmin) as (Hy & Hm & _).
  pose proof (DateFacts.valid_fields _ Hvmax) as (HY & HM & _).
  pose proof (DateFacts.make_first_day _ _ Hy Hm) as Hfirst.
  assert (Hvfirst : Datetime.valid (first_of_month (min_date sc)) = true).
  { unfold first_of_month. now apply DateFacts.valid_first_day. }
  destruct (map_result_exists (value_to_y sc) (map (tick_value sc) tick_indices))
    as [ys Hys]; [intros v _; now apply value_to_y_ok|].
  destruct (date_ticks_spec sc Hvmax (date_ticks_fuel sc)
              (first_of_month (min_date sc)))
    as (n & xs & Hrun & Hxs & Hall & Hstop);
    [exact Hvfirst | reflexivity | exact Hlim | unfold date_ticks_fuel; lia | |].
  { unfold date_ticks_fuel, month_index, first_of_month. cbn [year month].
    lia. }
  exists scaled, ys, n, xs. repeat (split; [assumption|]).
  unfold svg_lines. rewrite Hscaled. cbn [bind].
  rewrite value_ticks_eq. cbn [bind].
  pose proof (value_tick_lines_ok sc _ _ Hys) as Htl.
  fold tick_indices. rewrite Htl. cbn [bind].
  fold (first_of_month (min_date sc)) in Hfirst. rewrite Hfirst. cbn [bind].
  rewrite Hrun. cbn [bind]. rewrite <- flat_map_concat_map. reflexivity.
Qed.

(** ** The fuel of the date loop is enough *)

Lemma fuel_left_bind {A B : Type} (r : result A) (k : A -> result B) :
  fuel_left r -> (forall a, r = Ok a -> fuel_left (k a)) ->
  fuel_left (bind r k).
Proof. destruct r as [a|e]; simpl; intros Hr Hk; [now apply Hk | exact Hr]. Qed.

Lemma fuel_left_map_result {A B : Type} (f : A -> result B) (xs : list A) :
  (forall x, fuel_left (f x)) -> fuel_left (map_result f xs).
Proof.
  intros Hf. induction xs as [|x xs IH]; cbn [map_result]; [exact I|].
  apply fuel_left_bind; [apply Hf|]. intros y _.
  apply fuel_left_bind; [exact IH|]. intros ys _. exact I.
Qed.

Lemma fuel_left_make (y m d : Z) : fuel_left (Datetime.make y m d).
Proof. unfold Datetime.make. destruct (Datetime.valid _); exact I. Qed.

Lemma fuel_left_truediv (x y : float) : fuel_left (F64.truediv x y).
Proof. unfold F64.truediv. destruct (F64.is_zero y); exact I. Qed.

Lemma fuel_left_date_to_x (sc : scale) (d : datetime) :
  fuel_left (date_to_x sc d).
Proof. destruct (date_to_x_ok sc d) as [x ->]. exact I. Qed.

Lemma fuel_left_value_to_y (sc : scale) (v : float) :
  fuel_left (value_to_y sc v).
Proof.
  unfold value_to_y. apply fuel_left_bind; [apply fuel_left_truediv|].
  intros q _. exact I.
Qed.

Lemma fuel_left_py_min {A : Type} (lt : A -> A -> bool) (xs : list A) :
  fuel_left (py_min lt xs).
Proof. destruct xs; exact I. Qed.

Lemma fuel_left_py_max {A : Type} (lt : A -> A -> bool) (xs : list A) :
  fuel_left (py_max lt xs).
Proof. destruct xs; exact I. Qed.

Lemma fuel_left_extrema (points : list monthly_point) :
  fuel_left (extrema points).
Proof.
  unfold extrema.
  apply fuel_left_bind; [apply fuel_left_py_min|]. intros lo_date _.
  apply fuel_left_bind; [apply fuel_left_py_max|]. intros hi_date _.
  apply fuel_left_bind; [apply fuel_left_py_min|]. intros lo_value _.
  apply fuel_left_bind; [apply fuel_left_py_max|]. intros hi_value _.
  destruct (widen lo_value hi_value) as [lo hi]. exact I.
Qed.

Lemma fuel_left_scale_points (points : list monthly_point) :
  fuel_left (scale_points points).
Proof.
  unfold scale_points.
  apply fuel_left_bind; [apply fuel_left_extrema|]. intros sc _.
  apply fuel_left_bind; [|intros scaled _; exact I].
  apply fuel_left_map_result. intros p. unfold scale_point.
  apply fuel_left_bind; [apply fuel_left_date_to_x|]. intros x _.
  apply fuel_left_bind; [apply fuel_left_value_to_y|]. intros y _. exact I.
Qed.

(** The step of the date loop, when it does not raise, goes three months on
    to a valid first day of a month. *)
Lemma next_quarter_inv (d next : datetime) :
  Datetime.valid d = true -> day d = 1 -> next_quarter d = Ok next ->
  next = add_months d 3 /\ Datetime.valid next = true.
Proof.
  intros Hv Hd Hn. apply DateFacts.valid_fields in Hv as (Hy & Hm & _).
  unfold next_quarter, Datetime.make in Hn.
  assert (Hnext : Datetime.valid next = true
                  /\ month_index next = month_index d + 3 /\ day next = 1).
  { unfold month_index.
    destruct (Z.leb_spec 10 (month d)) as [H10|H10];
      match type of Hn with
      | (if Datetime.valid ?x then _ else _) = _ =>
          destruct (Datetime.valid x) eqn:Hx; [|discriminate];
          assert (Hnx : next = x) by congruence; rewrite Hnx;
          split; [exact Hx|]; cbn [year month day];
          split; [Z.div_mod_to_equations; lia | reflexivity]
      end. }
  destruct Hnext as (Hvn & Hidx & Hdn). split; [|exact Hvn].
  apply DateFacts.valid_fields in Hvn as (_ & Hmn & _).
  rewrite <- (DateFacts.add_months_0 next Hmn Hdn).
  unfold add_months. rewrite Hidx, Z.add_0_r. reflexivity.
Qed.

Lemma date_ticks_fuel_enough (sc : scale) :
  Datetime.valid (max_date sc) = true ->
  forall (fuel : nat) (current : datetime),
    Datetime.valid current = true -> day current = 1 ->
    (1 <= fuel)%nat ->
    month_index (max_date sc) - month_index current < 3 * Z.of_nat fuel - 3 ->
    fuel_left (date_ticks fuel sc current).
Proof.
  intros Hvmax. induction fuel as [|fuel IH]; intros cur Hv Hd Hf Hm; [lia|].
  cbn [date_ticks].
  destruct (Datetime.leb cur (max_date sc)) eqn:Hle; [|exact I].
  assert (Hidx : month_index cur <= month_index (max_date sc)).
  { pose proof (DateFacts.valid_fields _ Hv) as (_ & Hmo & _).
    pose proof (DateFacts.valid_fields _ Hvmax) as (_ & Hmm & _).
    apply DateFacts.leb_spec in Hle. unfold month_index. lia. }
  apply fuel_left_bind; [apply fuel_left_date_to_x|]. intros x _.
  apply fuel_left_bind.
  { unfold next_quarter. destruct (10 <=? month cur); apply fuel_left_make. }
  intros next Hn. destruct (next_quarter_inv _ _ Hv Hd Hn) as [-> Hvn].
  apply fuel_left_bind; [|intros rest _; exact I].
  apply IH; [exact Hvn | reflexivity | lia |].
  rewrite DateFacts.month_index_add_months. lia.
Qed.

(** On points with valid dates [svg_lines], and with it [build_svg], never
    ends by the exhaustion of the fuel: the bound of the loop is only a
    device of the model. *)
Lemma svg_lines_fuel_enough (points : list monthly_point) :
  Forall (fun p => Datetime.valid (fst p) = true) points ->
  fuel_left (svg_lines points).
Proof.
  intros Hvalid. unfold svg_lines.
  apply fuel_left_bind; [apply fuel_left_scale_points|].
  intros [scaled sc] Hs. apply scale_points_scale in Hs as [Hsc _].
  rewrite value_ticks_eq. cbn [bind].
  apply fuel_left_bind.
  { apply fuel_left_map_result. intros v. unfold value_tick_lines.
    apply fuel_left_bind; [apply fuel_left_value_to_y|]. intros y _. exact I. }
  intros tick_lines _.
  apply fuel_left_bind; [apply fuel_left_make|]. intros current Hcur.
  destruct (extrema_dates _ _ Hsc) as [Hmin Hmax].
  rewrite Forall_forall in Hvalid.
  assert (Hvmin : Datetime.valid (min_date sc) = true).
  { apply in_map_iff in Hmin as (p & <- & Hp). now apply Hvalid. }
  assert (Hvmax : Datetime.valid (max_date sc) = true).
  { apply in_map_iff in Hmax as (p & <- & Hp). now apply Hvalid. }
  pose proof (DateFacts.valid_fields _ Hvmin) as (Hy & Hm & _).
  pose proof (DateFacts.valid_fields _ Hvmax) as (HY & HM & _).
  rewrite (DateFacts.make_first_day _ _ Hy Hm) in Hcur.
  injection Hcur as <-.
  apply fuel_left_bind; [|intros date_lines _; exact I].
  apply date_ticks_fuel_enough.
  - exact Hvmax.
  - now apply DateFacts.valid_first_day.
  - reflexivity.
  - unfold date_ticks_fuel. lia.
  - unfold date_ticks_fuel, month_index. cbn [year month]. lia.
Qed.

(** ** The lowest value tick *)

Lemma sub_self (x : float) :
  F64.is_zero x = true \/ (exists s m e, x = S754_finite s m e) ->
  F64.sub x x = S754_zero false.
Proof.
  intros [Hz | (s & m & e & ->)].
  - destruct x as [[|]| | |]; try discriminate; reflexivity.
  - unfold F64.sub, SFsub. rewrite Z.sub_diag. reflexivity.
Qed.

(** When the value span is a finite float above zero, the tick of index 0
    equals the smallest value. *)
Lemma tick_zero_eqb_min (sc : scale) (m : positive) (e : Z) :
  F64.sub (max_value sc) (min_value sc) = S754_finite false m e ->
  F64.eqb (tick_value sc 0) (min_value sc) = true.
Proof.
  intros Hspan. unfold tick_value. rewrite Hspan.
  change (SFdiv F64.prec F64.emax
            (F64.mul (F64.of_Z 0) (S754_finite false m e)) (F64.of_Z 5))
    with (S754_zero false).
  destruct (max_value sc) as [sa|sa| |sa ma ea],
           (min_value sc) as [sb|sb| |sb mb eb];
    cbv beta iota delta [F64.sub SFsub] in Hspan;
    try discriminate; try (destruct sa, sb; discriminate).
  all: first
    [ solve [destruct sb; reflexivity]
    | change (F64.add (S754_finite sb mb eb) (S754_zero false))
        with (S754_finite sb mb eb);
      unfold F64.eqb, SFeqb;
      rewrite F64Facts.compare_refl; [reflexivity | discriminate] ].
Qed.

(** ** Flat values *)




(** ** The value axis *)

(** C7, as amended: when the value span is not zero and no date tick falls
    in the last three months of 9999, [build_svg] returns, and the entries of
    the value axis are six tick marks, each with its label, for the floats
    [min + i * (max - min) / 5], [i] from 0 to 5, each drawn at the height
    [value_to_y] gives.  When the span is a finite float above zero the
    lowest tick equals the smallest value; of the highest tick nothing more
    is said than the formula: rounding can keep it away from the largest
    value. *)
Theorem value_axis_six_ticks (points : list monthly_point) (sc : scale) :
  extrema points = Ok sc ->
  F64.is_zero (F64.sub (max_value sc) (min_value sc)) = false ->
  Forall (fun p => Datetime.valid (fst p) = true) points ->
  ticks_in_range (first_of_month (min_date sc)) (max_date sc) ->
  exists lines ys,
    svg_lines points = Ok lines
    /\ build_svg points
       = Ok (String.concat newline (filter nonempty (map render_line lines)))
    /\ map_result (value_to_y sc) (map (tick_value sc) [0; 1; 2; 3; 4; 5])
       = Ok ys
    /\ List.length ys = 6%nat
    /\ filter is_value_tick lines
       = flat_map value_tick_entries
           (combine (map (tick_value sc) [0; 1; 2; 3; 4; 5]) ys)
    /\ (forall (m : positive) (e : Z),
          F64.sub (max_value sc) (min_value sc) = S754_finite false m e ->
          F64.eqb (tick_value sc 0) (min_value sc) = true).
Proof.
  intros Hsc Hspan Hvalid Hlim.
  destruct (svg_lines_ok points sc Hsc Hspan Hvalid Hlim)
    as (scaled & ys & n & xs & Hys & _ & _ & _ & Hlines).
  eexists. exists ys. split; [exact Hlines|].
  split; [unfold build_svg; rewrite Hlines; reflexivity|].
  split; [exact Hys|]. split; [|split].
  - apply map_result_length in Hys. exact Hys.
  - apply filter_value_ticks_lines, filter_value_of_date_entries.
  - intros m e. apply tick_zero_eqb_min.
Qed.

Lemma value_axis_six_ticks_witness :
  extrema scenario_points = Ok scenario_scale
  /\ exists lines ys,
      svg_lines scenario_points = Ok lines
      /\ build_svg scenario_points
         = Ok (String.concat newline
                 (filter nonempty (map render_line lines)))
      /\ map_result (value_to_y scenario_scale)
           (map (tick_value scenario_scale) [0; 1; 2; 3; 4; 5]) = Ok ys
      /\ List.length ys = 6%nat
      /\ filter is_value_tick lines
         = flat_map value_tick_entries
             (combine (map (tick_value scenario_scale) [0; 1; 2; 3; 4; 5]) ys)
      /\ F64.eqb (tick_value scenario_scale 0) (min_value scenario_scale)
         = true.
Proof.
  split; [reflexivity|].
  destruct (value_axis_six_ticks scenario_points scenario_scale)
    as (lines & ys & H1 & H2 & H3 & H4 & H5 & H6).
  - reflexivity.
  - reflexivity.
  - repeat constructor.
  - apply ticks_in_range_before. reflexivity.
  - exists lines, ys. repeat (split; [assumption|]).
    apply (H6 5629499534213120%positive (-50)). reflexivity.
Defined.

(** C7 as stated fails, in three ways.  For the two values -10^16 and 1 the
    chart is drawn and has its six ticks, but the highest, at
    [min + 5 * (max - min) / 5], is 0 and not the largest value 1: the
    difference [max - min] rounds to 10^16, so that the ticks do not span
    the range up to the maximum.  And there are non-empty sequences on which
    [build_svg] raises, so that no tick is emitted: the one point with the
    value 2^54, whose value span is zero (ZeroDivisionError), and the one
    point in October 9999, whose next date tick would be in the year 10000
    (ValueError). *)
Lemma value_axis_six_ticks_counterexample :
  (uneven_points <> []
   /\ extrema uneven_points = Ok uneven_scale
   /\ (exists doc, build_svg uneven_points = Ok doc)
   /\ max_value uneven_scale = F64.of_Z 1
   /\ tick_value uneven_scale 5 = F64.zero
   /\ F64.eqb (tick_value uneven_scale 5) (max_value uneven_scale) = false
   /\ FloatStr.format_2f (tick_value uneven_scale 5) = "0.00"
   /\ FloatStr.format_2f (max_value uneven_scale) = "1.00")
  /\ (huge_flat_points <> []
      /\ build_svg huge_flat_points = Raise ZeroDivisionError)
  /\ (last_quarter_points <> []
      /\ build_svg last_quarter_points = Raise ValueError)
  /\ ~ (forall (points : list monthly_point) (sc : scale),
          extrema points = Ok sc ->
          Forall (fun p => Datetime.valid (fst p) = true) points ->
          ticks_in_range (first_of_month (min_date sc)) (max_date sc) ->
          F64.is_zero (F64.sub (max_value sc) (min_value sc)) = false ->
          exists lines ys,
            svg_lines points = Ok lines
            /\ map_result (value_to_y sc)
                 (map (tick_value sc) [0; 1; 2; 3; 4; 5]) = Ok ys
            /\ filter is_value_tick lines
               = flat_map value_tick_entries
                   (combine (map (tick_value sc) [0; 1; 2; 3; 4; 5]) ys)
            /\ F64.eqb (tick_value sc 0) (min_value sc) = true
            /\ F64.eqb (tick_value sc 5) (max_value sc) = true)
  /\ ~ (forall points : list monthly_point,
          points <> [] ->
          exists lines,
            svg_lines points = Ok lines
            /\ List.length (filter is_value_tick lines) = 12%nat).
Proof.
  assert (H : svg_lines huge_flat_points = Raise ZeroDivisionError)
    by (vm_compute; reflexivity).
  split.
  { split; [discriminate|]. split; [reflexivity|].
    split; [eexists; vm_compute; reflexivity|].
    repeat split; vm_compute; reflexivity. }
  split; [split; [discriminate | unfold build_svg; now rewrite H]|].
  split; [split; [discriminate | vm_compute; reflexivity]|].
  split.
  - intros Hall.
    destruct (Hall uneven_points uneven_scale)
      as (lines & ys & _ & _ & _ & _ & Htop).
    + reflexivity.
    + repeat constructor.
    + apply ticks_in_range_before. reflexivity.
    + reflexivity.
    + vm_compute in Htop. discriminate.
  - intros Hall. destruct (Hall huge_flat_points) as (lines & Hl & _);
      [discriminate|].
    rewrite H in Hl. discriminate.
Qed.

(** ** The date axis *)

(** C8, as amended: when the value span is not zero and no date tick falls
    in the last three months of 9999, [build_svg] returns, and the entries of
    the date axis are a tick mark and a label for the first day of every
    third month, from the month of the earliest date on and as long as that
    day does not exceed the latest date; mark and label are drawn at the
    abscissa [date_to_x] gives for that day, and the label reads the
    abbreviated month and the year. *)
Theorem date_axis_quarterly_ticks (points : list monthly_point) (sc : scale) :
  extrema points = Ok sc ->
  F64.is_zero (F64.sub (max_value sc) (min_value sc)) = false ->
  Forall (fun p => Datetime.valid (fst p) = true) points ->
  ticks_in_range (first_of_month (min_date sc)) (max_date sc) ->
  exists lines n xs,
    svg_lines points = Ok lines
    /\ build_svg points
       = Ok (String.concat newline (filter nonempty (map render_line lines)))
    /\ map_result (date_to_x sc)
         (quarter_starts (first_of_month (min_date sc)) n) = Ok xs
    /\ filter is_date_tick lines
       = flat_map date_tick_entries
           (combine (quarter_starts (first_of_month (min_date sc)) n) xs)
    /\ Forall (fun d => Datetime.leb d (max_date sc) = true)
              (quarter_starts (first_of_month (min_date sc)) n)
    /\ Datetime.leb (add_months (first_of_month (min_date sc))
                                (3 * Z.of_nat n)) (max_date sc) = false
    /\ forall x d,
        render_line (DateTickText x d)
        = "<text" ++ attr "x" (FloatStr.format_2f x) ++ attr "y" "545"
            ++ attr "text-anchor" "middle" ++ ">"
            ++ (Datetime.month_abbr (month d) ++ " " ++ Str.of_nonneg (year d))
            ++ "</text>".
Proof.
  intros Hsc Hspan Hvalid Hlim.
  destruct (svg_lines_ok points sc Hsc Hspan Hvalid Hlim)
    as (scaled & ys & n & xs & _ & Hxs & Hall & Hstop & Hlines).
  eexists. exists n, xs. split; [exact Hlines|].
  split; [unfold build_svg; rewrite Hlines; reflexivity|].
  split; [exact Hxs|]. split; [apply filter_date_ticks_lines|].
  split; [exact Hall|]. split; [exact Hstop|]. reflexivity.
Qed.

Lemma date_axis_quarterly_ticks_witness :
  extrema scenario_points = Ok scenario_scale
  /\ exists lines n xs,
      svg_lines scenario_points = Ok lines
      /\ build_svg scenario_points
         = Ok (String.concat newline
                 (filter nonempty (map render_line lines)))
      /\ map_result (date_to_x scenario_scale)
           (quarter_starts (first_of_month (min_date scenario_scale)) n)
         = Ok xs
      /\ filter is_date_tick lines
         = flat_map date_tick_entries
             (combine
                (quarter_starts (first_of_month (min_date scenario_scale)) n)
                xs)
      /\ Forall (fun d => Datetime.leb d (max_date scenario_scale) = true)
                (quarter_starts (first_of_month (min_date scenario_scale)) n)
      /\ Datetime.leb (add_months (first_of_month (min_date scenario_scale))
                                  (3 * Z.of_nat n))
                      (max_date scenario_scale) = false
      /\ forall x d,
          render_line (DateTickText x d)
          = "<text" ++ attr "x" (FloatStr.format_2f x) ++ attr "y" "545"
              ++ attr "text-anchor" "middle" ++ ">"
              ++ (Datetime.month_abbr (month d) ++ " "
                  ++ Str.of_nonneg (year d))
              ++ "</text>".
Proof.
  split; [reflexivity|].
  apply (date_axis_quarterly_ticks scenario_points scenario_scale).
  - reflexivity.
  - reflexivity.
  - repeat constructor.
  - apply ticks_in_range_before. reflexivity.
Defined.

(** C8 as stated fails: for the one point in October 9999 the loop of the
    date axis asks for 1 January 10000 after its first tick and [build_svg]
    raises ValueError; and for the one point with the value 2^54
    [build_svg] raises ZeroDivisionError before it comes to the date axis. *)
Lemma date_axis_quarterly_ticks_counterexample :
  (last_quarter_points <> []
   /\ Forall (fun p => Datetime.valid (fst p) = true) last_quarter_points
   /\ next_quarter (mkdatetime 9999 10 1) = Raise ValueError
   /\ build_svg last_quarter_points = Raise ValueError)
  /\ (huge_flat_points <> []
      /\ build_svg huge_flat_points = Raise ZeroDivisionError)
  /\ ~ (forall points : list monthly_point,
          points <> [] ->
          Forall (fun p => Datetime.valid (fst p) = true) points ->
          exists lines, svg_lines points = Ok lines).
Proof.
  assert (H : svg_lines last_quarter_points = Raise ValueError)
    by (vm_compute; reflexivity).
  split.
  { split; [discriminate|]. split; [repeat constructor|].
    split; [reflexivity | unfold build_svg; now rewrite H]. }
  split; [split; [discriminate | vm_compute; reflexivity]|].
  intros Hall. destruct (Hall last_quarter_points) as (lines & Hl);
    [discriminate | repeat constructor |].
  rewrite H in Hl. discriminate.
Qed.

(** The label of January 2020 stands at the abscissa of 1 January 2020. *)
Example jan_2020_label :
  exists x,
    date_to_x scenario_scale (mkdatetime 2020 1 1) = Ok x
    /\ option_map (filter is_date_tick)
         (match svg_lines scenario_points with
          | Ok lines => Some lines
          | Raise _ => None
          end)
       = Some [DateTickLine x; DateTickText x (mkdatetime 2020 1 1)]
    /\ render_line (DateTickText x (mkdatetime 2020 1 1))
       = "<text" ++ attr "x" "80.00" ++ attr "y" "545"
           ++ attr "text-anchor" "middle" ++ ">Jan 2020</text>".
Proof. eexists. repeat split; vm_compute; reflexivity. Qed.

(** ** The aggregator *)

Lemma key_eqb_eq (a b : month_key) : key_eqb a b = true <-> a = b.
Proof.
  unfold key_eqb. rewrite andb_true_iff, !Z.eqb_eq.
  destruct a, b; simpl. split; [intros [-> ->]; reflexivity|].
  intros H. inversion H. auto.
Qed.

Lemma key_eqb_refl (a : month_key) : key_eqb a a = true.
Proof. now apply key_eqb_eq. Qed.

Lemma key_eqb_neq (a b : month_key) : key_eqb a b = false <-> a <> b.
Proof. rewrite <- key_eqb_eq. now destruct (key_eqb a b). Qed.

Lemma key_eqb_sym (a b : month_key) : key_eqb a b = key_eqb b a.
Proof. unfold key_eqb. now rewrite (Z.eqb_sym (fst a)), (Z.eqb_sym (snd a)). Qed.

Lemma dict_append_lookup (key k : month_key) (v : float)
    (g : list (month_key * list float)) :
  dict_lookup k (dict_append key v g)
  = (dict_lookup k g ++ (if key_eqb key k then [v] else []))%list.
Proof.
  induction g as [|[k0 vs] g IH]; cbn [dict_append dict_lookup].
  - reflexivity.
  - destruct (key_eqb k0 key) eqn:E0; cbn [dict_lookup].
    + apply key_eqb_eq in E0. subst k0.
      destruct (key_eqb key k); [reflexivity | now rewrite app_nil_r].
    + destruct (key_eqb k0 k) eqn:E1; [|exact IH].
      apply key_eqb_eq in E1. subst k0.
      rewrite key_eqb_sym, E0. now rewrite app_nil_r.
Qed.

Lemma dict_append_keys (key : month_key) (v : float)
    (g : list (month_key * list float)) :
  map fst (dict_append key v g)
  = (map fst g ++ (if existsb (key_eqb key) (map fst g) then [] else [key]))%list.
Proof.
  induction g as [|[k0 vs] g IH]; cbn [dict_append map fst existsb app].
  - reflexivity.
  - destruct (key_eqb k0 key) eqn:E0.
    + apply key_eqb_eq in E0. subst k0. rewrite key_eqb_refl.
      cbn [map fst orb]. now rewrite app_nil_r.
    + rewrite (key_eqb_sym key k0), E0. cbn [map fst orb]. now rewrite IH.
Qed.

Lemma existsb_key_In (key : month_key) (keys : list month_key) :
  existsb (key_eqb key) keys = true <-> In key keys.
Proof.
  rewrite existsb_exists. split.
  - intros (k & Hk & E). apply key_eqb_eq in E. now subst.
  - intros H. exists key. split; [assumption | apply key_eqb_refl].
Qed.

Lemma dict_append_NoDup (key : month_key) (v : float)
    (g : list (month_key * list float)) :
  NoDup (map fst g) -> NoDup (map fst (dict_append key v g)).
Proof.
  intros H. rewrite dict_append_keys.
  destruct (existsb (key_eqb key) (map fst g)) eqn:E.
  - now rewrite app_nil_r.
  - apply NoDup_app; [assumption | repeat constructor; auto | ].
    intros k Hk [<-|[]]. apply existsb_key_In in Hk. congruence.
Qed.

Lemma dict_append_In (key k : month_key) (v : float)
    (g : list (month_key * list float)) :
  In k (map fst (dict_append key v g)) <-> In k (map fst g) \/ k = key.
Proof.
  rewrite dict_append_keys, in_app_iff.
  destruct (existsb (key_eqb key) (map fst g)) eqn:E; simpl.
  - apply existsb_key_In in E. split; [tauto|].
    intros [H | ->]; auto.
  - split; [intros [H|[H|[]]]; auto | intros [H|H]; auto].
Qed.

Lemma group_rows_snoc (rows : list price_row) (r : price_row) :
  group_rows (rows ++ [r])
  = dict_append (row_key r) (row_diff r) (group_rows rows).
Proof.
  unfold group_rows. rewrite fold_left_app. cbn [fold_left].
  destruct r as [[d o] c]. reflexivity.
Qed.

Lemma diffs_of_snoc (k : month_key) (rows : list price_row) (r : price_row) :
  diffs_of k (rows ++ [r])
  = (diffs_of k rows ++ (if key_eqb (row_key r) k then [row_diff r] else []))%list.
Proof.
  unfold diffs_of. rewrite filter_app, map_app. cbn [filter].
  destruct (key_eqb (row_key r) k); reflexivity.
Qed.

(** The list kept for a month holds the differences of the rows of that
    month, in the order of the rows. *)
Lemma group_rows_lookup (rows : list price_row) (k : month_key) :
  dict_lookup k (group_rows rows) = diffs_of k rows.
Proof.
  induction rows as [|r rows IH] using rev_ind; [reflexivity|].
  now rewrite group_rows_snoc, dict_append_lookup, diffs_of_snoc, IH.
Qed.

Lemma group_rows_NoDup (rows : list price_row) :
  NoDup (map fst (group_rows rows)).
Proof.
  induction rows as [|r rows IH] using rev_ind; [constructor|].
  rewrite group_rows_snoc. now apply dict_append_NoDup.
Qed.

Lemma group_rows_keys (rows : list price_row) (k : month_key) :
  In k (map fst (group_rows rows)) <-> exists r, In r rows /\ row_key r = k.
Proof.
  induction rows as [|r rows IH] using rev_ind.
  - simpl. split; [tauto | intros (r & [] & _)].
  - rewrite group_rows_snoc, dict_append_In, IH. split.
    + intros [(r' & Hr' & Hk) | ->].
      * exists r'. split; [apply in_or_app; now left | assumption].
      * exists r. split; [apply in_or_app; right; now left | reflexivity].
    + intros (r' & Hr' & Hk). apply in_app_or in Hr' as [Hr'|[<-|[]]].
      * left. eauto.
      * right. now symmetry.
Qed.

Lemma dict_lookup_In (g : list (month_key * list float)) (k : month_key)
    (vs : list float) :
  NoDup (map fst g) -> In (k, vs) g -> dict_lookup k g = vs.
Proof.
  induction g as [|[k0 vs0] g IH]; intros Hnd Hin; [contradiction|].
  cbn [map fst] in Hnd. inversion Hnd as [|? ? Hnot Hnd']; subst.
  cbn [dict_lookup]. destruct Hin as [Heq | Hin].
  - injection Heq as -> ->. now rewrite key_eqb_refl.
  - destruct (key_eqb k0 k) eqn:E.
    + apply key_eqb_eq in E. subst k0. exfalso. apply Hnot.
      apply in_map_iff. exists (k, vs). auto.
    + now apply IH.
Qed.

Lemma diffs_of_nonempty (rows : list price_row) (r : price_row) :
  In r rows -> diffs_of (row_key r) rows <> [].
Proof.
  intros Hin. unfold diffs_of.
  assert (H : In r (filter (fun r' => key_eqb (row_key r') (row_key r)) rows)).
  { apply filter_In. split; [assumption | apply key_eqb_refl]. }
  destruct (filter _ rows); [contradiction | discriminate].
Qed.

Lemma truediv_int_length (x : float) (diffs : list float) :
  diffs <> [] ->
  truediv_int x (Z.of_nat (List.length diffs))
  = Ok (SFdiv F64.prec F64.emax x (F64.of_Z (Z.of_nat (List.length diffs)))).
Proof.
  intros Hne. unfold truediv_int, F64.truediv.
  rewrite RoundFacts.of_Z_nonzero; [reflexivity|].
  destruct diffs; [congruence | simpl; lia].
Qed.

(** The averaging of one group of a valid month does not raise. *)
Lemma average_group_ok (k : month_key) (diffs : list float) :
  diffs <> [] -> 1 <= fst k <= 9999 -> 1 <= snd k <= 12 ->
  average_group (k, diffs) = Ok (key_date k, average diffs).
Proof.
  intros Hne Hy Hm. destruct k as [y m]. unfold average_group.
  rewrite truediv_int_length by assumption. cbn [bind].
  rewrite DateFacts.make_first_day by assumption. reflexivity.
Qed.

Lemma row_key_valid (r : price_row) :
  Datetime.valid (row_date r) = true ->
  1 <= fst (row_key r) <= 9999 /\ 1 <= snd (row_key r) <= 12.
Proof.
  intros H. apply DateFacts.valid_fields in H. unfold row_key. simpl. tauto.
Qed.

(** The averaging of the groups of valid rows: one point for each group, on
    the first day of its month, with the average of its differences. *)
Lemma averaged_groups (rows : list price_row) :
  Forall (fun r => Datetime.valid (row_date r) = true) rows ->
  map_result average_group (group_rows rows)
  = Ok (map (fun k => (key_date k, average (diffs_of k rows)))
            (map fst (group_rows rows))).
Proof.
  intros Hvalid. rewrite Forall_forall in Hvalid.
  rewrite map_map.
  apply map_result_pointwise. intros [k vs] Hin. cbn [fst].
  pose proof (group_rows_NoDup rows) as Hnd.
  rewrite <- (dict_lookup_In _ _ _ Hnd Hin) at 1.
  rewrite group_rows_lookup.
  assert (Hk : In k (map fst (group_rows rows))).
  { apply in_map_iff. exists (k, vs). auto. }
  apply group_rows_keys in Hk as (r & Hr & <-).
  destruct (row_key_valid r (Hvalid r Hr)) as [Hy Hm].
  apply average_group_ok; [now apply diffs_of_nonempty | assumption ..].
Qed.

(** ** Sorting by date *)

Lemma insert_by_date_perm (x : monthly_point) (l : list monthly_point) :
  Permutation (insert_by_date x l) (x :: l).
Proof.
  induction l as [|y l IH]; cbn [insert_by_date]; [reflexivity|].
  destruct (Datetime.ltb (fst y) (fst x)); [|reflexivity].
  rewrite IH. apply perm_swap.
Qed.

Lemma sort_by_date_perm (l : list monthly_point) :
  Permutation (sort_by_date l) l.
Proof.
  induction l as [|x l IH]; cbn [sort_by_date fold_right]; [reflexivity|].
  rewrite insert_by_date_perm. now constructor.
Qed.

Lemma insert_by_date_ascending (x : monthly_point) (l : list monthly_point) :
  ascending (map fst l) -> ~ In (fst x) (map fst l) ->
  ascending (map fst (insert_by_date x l)).
Proof.
  unfold ascending.
  induction l as [|y l IH]; intros Hs Hnot; cbn [insert_by_date map].
  - repeat constructor.
  - cbn [map] in Hs, Hnot. inversion Hs as [|? ? Hs' Hall]; subst.
    destruct (Datetime.ltb (fst y) (fst x)) eqn:E; cbn [map].
    + constructor.
      * apply IH; [assumption | intros Hin; apply Hnot; now right].
      * rewrite Forall_forall. intros d Hd.
        apply (Permutation_in _ (Permutation_map fst (insert_by_date_perm x l)))
          in Hd.
        destruct Hd as [<- | Hd]; [exact E|].
        rewrite Forall_forall in Hall. now apply Hall.
    + assert (Hlt : Datetime.ltb (fst x) (fst y) = true).
      { apply DateFacts.ltb_total; [intros Heq; apply Hnot; now left | exact E]. }
      constructor; [exact Hs|]. constructor; [exact Hlt|].
      rewrite Forall_forall in Hall |- *. intros d Hd.
      eapply DateFacts.ltb_trans; [exact Hlt | now apply Hall].
Qed.

(** Points of different dates are sorted into strictly ascending order. *)
Lemma sort_by_date_ascending (l : list monthly_point) :
  NoDup (map fst l) -> ascending (map fst (sort_by_date l)).
Proof.
  induction l as [|x l IH]; intros Hnd; cbn [sort_by_date fold_right].
  - constructor.
  - cbn [map] in Hnd. inversion Hnd as [|? ? Hnot Hnd']; subst.
    apply insert_by_date_ascending; [now apply IH|].
    intros Hin. apply Hnot.
    exact (Permutation_in _ (Permutation_map fst (sort_by_date_perm l)) Hin).
Qed.

Lemma ascending_NoDup (dates : list datetime) :
  ascending dates -> NoDup dates.
Proof.
  induction 1 as [|d dates Hs IH Hall]; constructor; [|assumption].
  intros Hin. rewrite Forall_forall in Hall. specialize (Hall d Hin).
  now rewrite DateFacts.ltb_irrefl in Hall.
Qed.

(** Two strictly ascending lists with the same elements are equal. *)
Lemma ascending_unique (l1 l2 : list datetime) :
  ascending l1 -> ascending l2 ->
  (forall d, In d l1 <-> In d l2) -> l1 = l2.
Proof.
  intros H1. revert l2.
  induction H1 as [|a l1 Hs1 IH Hall1]; intros l2 H2 Hsame.
  - destruct l2 as [|b l2]; [reflexivity|].
    exfalso. apply (proj2 (Hsame b)). now left.
  - destruct H2 as [|b l2 Hs2 Hall2].
    + exfalso. apply (proj1 (Hsame a)). now left.
    + rewrite Forall_forall in Hall1, Hall2.
      assert (Hab : a = b).
      { destruct (proj1 (Hsame a) (or_introl eq_refl)) as [Hba | Ha2];
          [now symmetry|].
        destruct (proj2 (Hsame b) (or_introl eq_refl)) as [Hab | Hb1];
          [assumption|].
        pose proof (DateFacts.ltb_trans _ _ _ (Hall1 b Hb1) (Hall2 a Ha2)) as Hc.
        now rewrite DateFacts.ltb_irrefl in Hc. }
      subst b. f_equal. apply IH; [assumption|].
      intros d. split; intros Hd.
      * destruct (proj1 (Hsame d) (or_intror Hd)) as [<- | Hd2]; [|assumption].
        specialize (Hall1 a Hd). now rewrite DateFacts.ltb_irrefl in Hall1.
      * destruct (proj2 (Hsame d) (or_intror Hd)) as [<- | Hd1]; [|assumption].
        specialize (Hall2 a Hd). now rewrite DateFacts.ltb_irrefl in Hall2.
Qed.

Lemma key_date_injective (a b : month_key) : key_date a = key_date b -> a = b.
Proof.
  destruct a, b. unfold key_date. simpl. intros H. now inversion H.
Qed.

Lemma NoDup_map_injective {A B : Type} (f : A -> B) (l : list A) :
  (forall a b, f a = f b -> a = b) -> NoDup l -> NoDup (map f l).
Proof.
  intros Hinj. induction 1 as [|a l Hnot Hnd IH]; cbn [map]; constructor.
  - intros Hin. apply in_map_iff in Hin as (b & Hb & Hin).
    apply Hinj in Hb. now subst.
  - assumption.
Qed.

(** What [compute_monthly_average_diff] returns on valid rows: it returns;
    the months are strictly ascending; every point stands on the first day
    of its month and carries the average of the differences of the rows of
    that month; and the months are those of the rows. *)
Lemma compute_monthly_average_diff_spec (rows : list price_row) :
  Forall (fun r => Datetime.valid (row_date r) = true) rows ->
  exists out,
    compute_monthly_average_diff rows = Ok out
    /\ ascending (map fst out)
    /\ Forall (fun p => day (fst p) = 1
                        /\ snd p = average (diffs_of (date_key (fst p)) rows))
              out
    /\ forall d, In d (map fst out)
                 <-> exists r, In r rows /\ d = first_of_month (row_date r).
Proof.
  intros Hvalid. unfold compute_monthly_average_diff.
  rewrite (averaged_groups rows Hvalid). cbn [bind].
  set (averaged := map (fun k => (key_date k, average (diffs_of k rows)))
                       (map fst (group_rows rows))).
  assert (Hdates : map fst averaged = map key_date (map fst (group_rows rows))).
  { unfold averaged. rewrite map_map. reflexivity. }
  eexists. split; [reflexivity|].
  pose proof (sort_by_date_perm averaged) as Hperm.
  split; [|split].
  - apply sort_by_date_ascending. rewrite Hdates.
    apply NoDup_map_injective;
      [exact key_date_injective | apply group_rows_NoDup].
  - apply (Permutation_Forall (Permutation_sym Hperm)).
    unfold averaged. apply Forall_map. apply Forall_forall.
    intros [y m] _. cbn. split; reflexivity.
  - intros d.
    assert (Hin : In d (map fst (sort_by_date averaged))
                  <-> In d (map fst averaged)).
    { split; apply Permutation_in, Permutation_map;
        [exact Hperm | exact (Permutation_sym Hperm)]. }
    rewrite Hin, Hdates, in_map_iff. split.
    + intros (k & <- & Hk). apply group_rows_keys in Hk as (r & Hr & <-).
      exists r. split; [assumption | reflexivity].
    + intros (r & Hr & ->). exists (row_key r).
      split; [reflexivity | apply group_rows_keys; eauto].
Qed.

(** C5: on rows with valid dates [compute_monthly_average_diff] returns a
    list whose months are strictly ascending, hence without a repeated month,
    and every point of which stands on the first day of its month. *)
Theorem monthly_averages_strictly_ascending (rows : list price_row) :
  Forall (fun r => Datetime.valid (row_date r) = true) rows ->
  exists out,
    compute_monthly_average_diff rows = Ok out
    /\ ascending (map fst out)
    /\ NoDup (map fst out)
    /\ Forall (fun p => day (fst p) = 1) out.
Proof.
  intros Hvalid.
  destruct (compute_monthly_average_diff_spec rows Hvalid)
    as (out & Hout & Hasc & Hall & _).
  exists out. split; [assumption|]. split; [assumption|].
  split; [now apply ascending_NoDup|].
  eapply Forall_impl; [|exact Hall]. intros p [H _]. exact H.
Qed.

Lemma monthly_averages_strictly_ascending_witness :
  Forall (fun r => Datetime.valid (row_date r) = true) unordered_rows
  /\ exists out,
      compute_monthly_average_diff unordered_rows = Ok out
      /\ ascending (map fst out)
      /\ NoDup (map fst out)
      /\ Forall (fun p => day (fst p) = 1) out.
Proof.
  assert (H : Forall (fun r => Datetime.valid (row_date r) = true)
                     unordered_rows) by (repeat constructor).
  split; [exact H|].
  exact (monthly_averages_strictly_ascending unordered_rows H).
Defined.

Lemma filter_perm {A : Type} (keep : A -> bool) (l l' : list A) :
  Permutation l l' -> Permutation (filter keep l) (filter keep l').
Proof.
  induction 1 as [|x l l' _ IH|x y l|l l' l'' _ IH1 _ IH2]; cbn [filter].
  - constructor.
  - destruct (keep x); [now constructor | assumption].
  - destruct (keep x), (keep y); try reflexivity. apply perm_swap.
  - now transitivity (filter keep l').
Qed.

Lemma diffs_of_perm (k : month_key) (rows rows' : list price_row) :
  Permutation rows rows' -> Permutation (diffs_of k rows) (diffs_of k rows').
Proof. intros H. unfold diffs_of. now apply Permutation_map, filter_perm. Qed.

Lemma points_of_months (f : datetime -> float) (out : list monthly_point) :
  Forall (fun p => snd p = f (fst p)) out ->
  out = map (fun d => (d, f d)) (map fst out).
Proof.
  induction 1 as [|[d v] out Hp _ IH]; cbn [map fst]; [reflexivity|].
  cbn in Hp. subst v. now rewrite <- IH.
Qed.

(** C4, as amended: for a permutation of rows with valid dates,
    [compute_monthly_average_diff] returns the same months in the same
    order, and for each month the average of the same differences, taken in
    the order the rows have in that input: a permutation of the differences
    of the other. *)
Theorem monthly_averages_of_permuted_rows (rows rows' : list price_row) :
  Permutation rows rows' ->
  Forall (fun r => Datetime.valid (row_date r) = true) rows ->
  exists months,
    ascending months
    /\ compute_monthly_average_diff rows
       = Ok (map (fun d => (d, average (diffs_of (date_key d) rows))) months)
    /\ compute_monthly_average_diff rows'
       = Ok (map (fun d => (d, average (diffs_of (date_key d) rows'))) months)
    /\ forall k, Permutation (diffs_of k rows) (diffs_of k rows').
Proof.
  intros Hperm Hvalid.
  assert (Hvalid' : Forall (fun r => Datetime.valid (row_date r) = true) rows')
    by (exact (Permutation_Forall Hperm Hvalid)).
  destruct (compute_monthly_average_diff_spec rows Hvalid)
    as (out & Hout & Hasc & Hall & Hin).
  destruct (compute_monthly_average_diff_spec rows' Hvalid')
    as (out' & Hout' & Hasc' & Hall' & Hin').
  assert (Hmonths : map fst out' = map fst out).
  { apply ascending_unique; [assumption ..|]. intros d.
    rewrite Hin, Hin'. split; intros (r & Hr & ->); exists r; split;
      try reflexivity.
    - exact (Permutation_in _ (Permutation_sym Hperm) Hr).
    - exact (Permutation_in _ Hperm Hr). }
  exists (map fst out). split; [assumption|]. split; [|split].
  - rewrite Hout. f_equal.
    apply (points_of_months (fun d => average (diffs_of (date_key d) rows))).
    eapply Forall_impl; [|exact Hall]. intros p [_ H]. exact H.
  - rewrite Hout', <- Hmonths. f_equal.
    apply (points_of_months (fun d => average (diffs_of (date_key d) rows'))).
    eapply Forall_impl; [|exact Hall']. intros p [_ H]. exact H.
  - intros k. now apply diffs_of_perm.
Qed.

Lemma monthly_averages_of_permuted_rows_witness :
  Permutation unordered_rows reordered_rows
  /\ exists months,
      ascending months
      /\ compute_monthly_average_diff unordered_rows
         = Ok (map (fun d => (d, average (diffs_of (date_key d) unordered_rows)))
                   months)
      /\ compute_monthly_average_diff reordered_rows
         = Ok (map (fun d => (d, average (diffs_of (date_key d) reordered_rows)))
                   months)
      /\ forall k, Permutation (diffs_of k unordered_rows)
                               (diffs_of k reordered_rows).
Proof.
  assert (H : Permutation unordered_rows reordered_rows)
    by (apply perm_swap).
  split; [exact H|].
  apply (monthly_averages_of_permuted_rows unordered_rows reordered_rows H).
  repeat constructor.
Defined.

(** C4 as stated fails: three rows of one month with the differences 1e308,
    1e308 and -1e308 average to infinity, because the sum of the first two
    overflows; with the last two rows exchanged the sum stays finite. *)
Lemma monthly_averages_of_permuted_rows_counterexample :
  Permutation overflow_rows overflow_rows_shuffled
  /\ compute_monthly_average_diff overflow_rows
     = Ok [(mkdatetime 2020 1 1, F64.inf)]
  /\ compute_monthly_average_diff overflow_rows_shuffled
     = Ok [(mkdatetime 2020 1 1, SFdiv F64.prec F64.emax big (F64.of_Z 3))]
  /\ compute_monthly_average_diff overflow_rows
     <> compute_monthly_average_diff overflow_rows_shuffled.
Proof.
  split; [constructor; apply perm_swap|].
  assert (H1 : compute_monthly_average_diff overflow_rows
               = Ok [(mkdatetime 2020 1 1, F64.inf)])
    by (vm_compute; reflexivity).
  split; [exact H1|].
  split; [vm_compute; reflexivity|].
  rewrite H1. vm_compute. discriminate.
Qed.

(** The two orders of the three differences also give different sums when
    the sum carries a compensation term: infinity and 1e308. *)
Example overflow_sums_compensated :
  py_sum_compensated (diffs_of (2020, 1) overflow_rows) = F64.inf
  /\ py_sum_compensated (diffs_of (2020, 1) overflow_rows_shuffled) = big
  /\ py_sum (diffs_of (2020, 1) overflow_rows) = F64.inf
  /\ py_sum (diffs_of (2020, 1) overflow_rows_shuffled) = big.
Proof. repeat split; vm_compute; reflexivity. Qed.

(** * Further properties *)

(** ** The reader *)

(** X1: when [read_price_rows] returns, it returns one price row for each
    row of the file. *)
Theorem read_price_rows_count (rows : list row) (parsed : list price_row) :
  read_price_rows rows = Ok parsed ->
  List.length parsed = List.length rows.
Proof. apply map_result_length. Qed.

Lemma read_price_rows_count_witness :
  exists parsed,
    read_price_rows scenario_rows = Ok parsed
    /\ List.length parsed = List.length scenario_rows.
Proof.
  eexists. split; [vm_compute; reflexivity|].
  apply (read_price_rows_count scenario_rows). vm_compute. reflexivity.
Defined.

Lemma map_result_app_raise {A B : Type} (f : A -> result B)
    (good : list A) (bad : A) (rest : list A) (ys : list B) (e : exn) :
  map_result f good = Ok ys -> f bad = Raise e ->
  map_result f (good ++ bad :: rest)%list = Raise e.
Proof.
  revert ys. induction good as [|x good IH]; intros ys Hg Hb; cbn [app].
  - now apply map_result_raise.
  - cbn [map_result] in *. bind_inv Hg as y Hy. bind_inv Hg as ys' Hys.
    rewrite Hy. cbn [bind]. now rewrite (IH _ Hys Hb).
Qed.

(** X2: the first row that cannot be read ends the reading with its
    exception, whatever rows follow it: no row is skipped. *)
Theorem read_price_rows_first_error
    (good : list row) (bad : row) (rest : list row)
    (parsed : list price_row) (e : exn) :
  read_price_rows good = Ok parsed ->
  read_price_row bad = Raise e ->
  read_price_rows (good ++ bad :: rest)%list = Raise e.
Proof. apply map_result_app_raise. Qed.

Lemma read_price_rows_first_error_witness :
  read_price_rows (scenario_rows ++ malformed_row :: [later_row])%list
  = Raise ValueError.
Proof.
  apply (read_price_rows_first_error scenario_rows malformed_row [later_row]
           [(mkdatetime 2020 1 15, F64.of_Z 10, F64.of_Z 12);
            (mkdatetime 2020 1 20, F64.of_Z 10, F64.of_Z 8);
            (mkdatetime 2020 2 10, F64.of_Z 20, F64.of_Z 25)]).
  - vm_compute. reflexivity.
  - vm_compute. reflexivity.
Defined.

Lemma row_get_other_column (before after : row) (name value key : string) :
  name <> key ->
  row_get (before ++ (name, value) :: after)%list key
  = row_get (before ++ after)%list key.
Proof.
  intros Hne. induction before as [|[k v] before IH]; cbn [app row_get].
  - destruct (String.eqb_spec name key); [contradiction | reflexivity].
  - now rewrite IH.
Qed.

(** X3: a row is read from its columns [Date], [Open] and [Close/Last]
    alone: a column of another name, wherever it stands in the row, changes
    nothing. *)
Theorem read_price_row_other_column
    (before after : row) (name value : string) :
  name <> "Date" -> name <> "Open" -> name <> "Close/Last" ->
  read_price_row (before ++ (name, value) :: after)%list
  = read_price_row (before ++ after)%list.
Proof.
  intros Hd Ho Hc. unfold read_price_row.
  now rewrite !row_get_other_column by assumption.
Qed.

Lemma read_price_row_other_column_witness :
  read_price_row
    ([("Date", "1/15/2020")]
       ++ ("Volume", "1000")
          :: [("Open", "$10.00"); ("Close/Last", "$12.00")])%list
  = read_price_row
      ([("Date", "1/15/2020")]
         ++ [("Open", "$10.00"); ("Close/Last", "$12.00")])%list.
Proof.
  apply (read_price_row_other_column
           [("Date", "1/15/2020")]
           [("Open", "$10.00"); ("Close/Last", "$12.00")] "Volume" "1000");
    discriminate.
Defined.

Lemma make_valid (y m d : Z) (dt : datetime) :
  Datetime.make y m d = Ok dt -> Datetime.valid dt = true.
Proof.
  unfold Datetime.make.
  destruct (Datetime.valid (mkdatetime y m d)) eqn:Hv; [|discriminate].
  intros H. injection H as <-. exact Hv.
Qed.

Lemma strptime_valid (s : string) (d : datetime) :
  Datetime.strptime_mdY s = Ok d -> Datetime.valid d = true.
Proof.
  unfold Datetime.strptime_mdY.
  destruct (Datetime.split_on "/" (list_ascii_of_string s))
    as [|m [|dd [|y [|? ?]]]]; try discriminate.
  destruct (_ && _); [apply make_valid | discriminate].
Qed.

Lemma read_price_row_valid (r : row) (p : price_row) :
  read_price_row r = Ok p -> Datetime.valid (row_date p) = true.
Proof.
  unfold read_price_row. intros H.
  bind_inv H as date_text Hdt. bind_inv H as date Hdate.
  bind_inv H as open_text Hot. bind_inv H as open_price Hop.
  bind_inv H as close_text Hct. bind_inv H as close_price Hcp.
  injection H as <-. cbn. now apply strptime_valid in Hdate.
Qed.

Lemma map_result_Forall {A B : Type} (f : A -> result B) (P : B -> Prop)
    (xs : list A) (ys : list B) :
  (forall x y, f x = Ok y -> P y) ->
  map_result f xs = Ok ys -> Forall P ys.
Proof.
  intros Hf. revert ys. induction xs as [|x xs IH]; intros ys H;
    cbn [map_result] in H.
  - injection H as <-. constructor.
  - bind_inv H as y Hy. bind_inv H as ys' Hys. injection H as <-.
    constructor; [eapply Hf; eassumption | now apply IH].
Qed.

(** X4: what the reader returns the aggregator accepts: the dates of the
    price rows are valid, and [compute_monthly_average_diff] does not
    raise on them. *)
Theorem read_then_aggregate (rows : list row) (parsed : list price_row) :
  read_price_rows rows = Ok parsed ->
  Forall (fun p => Datetime.valid (row_date p) = true) parsed
  /\ exists out, compute_monthly_average_diff parsed = Ok out.
Proof.
  intros H.
  assert (Hv : Forall (fun p => Datetime.valid (row_date p) = true) parsed).
  { eapply map_result_Forall; [|exact H]. exact read_price_row_valid. }
  split; [exact Hv|].
  destruct (compute_monthly_average_diff_spec parsed Hv) as (out & Hout & _).
  eauto.
Qed.

Lemma read_then_aggregate_witness :
  exists parsed,
    read_price_rows scenario_rows = Ok parsed
    /\ Forall (fun p => Datetime.valid (row_date p) = true) parsed
    /\ exists out, compute_monthly_average_diff parsed = Ok out.
Proof.
  eexists. split; [vm_compute; reflexivity|].
  apply (read_then_aggregate scenario_rows). vm_compute. reflexivity.
Defined.

(** ** The aggregator *)

Lemma dict_append_length (key : month_key) (v : float)
    (g : list (month_key * list float)) :
  (List.length (dict_append key v g) <= S (List.length g))%nat.
Proof.
  induction g as [|[k vs] g IH]; cbn [dict_append List.length]; [lia|].
  destruct (key_eqb k key); cbn [List.length]; lia.
Qed.

Lemma group_rows_length (rows : list price_row) :
  (List.length (group_rows rows) <= List.length rows)%nat.
Proof.
  induction rows as [|r rows IH] using rev_ind; [simpl; lia|].
  rewrite group_rows_snoc, length_app. cbn [List.length].
  pose proof (dict_append_length (row_key r) (row_diff r) (group_rows rows)).
  lia.
Qed.

(** X5: on rows with valid dates the months of the result are the months of
    the rows, each once (they are strictly ascending); so there are at most
    as many points as rows, and none only when there is no row. *)
Theorem monthly_average_months
    (rows : list price_row) (out : list monthly_point) :
  Forall (fun r => Datetime.valid (row_date r) = true) rows ->
  compute_monthly_average_diff rows = Ok out ->
  (forall d, In d (map fst out)
             <-> exists r, In r rows /\ d = first_of_month (row_date r))
  /\ (List.length out <= List.length rows)%nat
  /\ (out = [] <-> rows = []).
Proof.
  intros Hvalid Hout.
  destruct (compute_monthly_average_diff_spec rows Hvalid)
    as (out' & Hout' & _ & _ & Hin).
  rewrite Hout in Hout'. injection Hout' as <-.
  split; [exact Hin|]. split.
  - unfold compute_monthly_average_diff in Hout.
    bind_inv Hout as averaged Hav. injection Hout as <-.
    rewrite (Permutation_length (sort_by_date_perm averaged)).
    rewrite (map_result_length _ _ _ Hav). apply group_rows_length.
  - split.
    + intros ->. destruct rows as [|r rows]; [reflexivity|].
      exfalso. apply (proj2 (Hin (first_of_month (row_date r)))).
      exists r. split; [now left | reflexivity].
    + intros ->. vm_compute in Hout. now injection Hout as <-.
Qed.

Lemma monthly_average_months_witness :
  exists out,
    compute_monthly_average_diff unordered_rows = Ok out
    /\ (forall d, In d (map fst out)
                  <-> exists r, In r unordered_rows
                                /\ d = first_of_month (row_date r))
    /\ (List.length out <= List.length unordered_rows)%nat
    /\ (out = [] <-> unordered_rows = []).
Proof.
  eexists. split; [vm_compute; reflexivity|].
  apply (monthly_average_months unordered_rows).
  - repeat constructor.
  - vm_compute. reflexivity.
Defined.

(** X6: on rows with valid dates every point of the result carries
    [sum(diffs) / len(diffs)] for the differences [close - open] of all the
    rows of its month, added in the order of the rows; there is at least
    one such row. *)
Theorem monthly_average_values
    (rows : list price_row) (out : list monthly_point) :
  Forall (fun r => Datetime.valid (row_date r) = true) rows ->
  compute_monthly_average_diff rows = Ok out ->
  Forall (fun p =>
            diffs_of (date_key (fst p)) rows <> []
            /\ snd p = SFdiv F64.prec F64.emax
                         (py_sum (diffs_of (date_key (fst p)) rows))
                         (F64.of_Z (Z.of_nat
                            (List.length (diffs_of (date_key (fst p)) rows)))))
         out.
Proof.
  intros Hvalid Hout.
  destruct (compute_monthly_average_diff_spec rows Hvalid)
    as (out' & Hout' & _ & Hall & Hin).
  rewrite Hout in Hout'. injection Hout' as <-.
  rewrite Forall_forall in Hall |- *. intros p Hp.
  destruct (Hall p Hp) as [_ Hval]. split; [|exact Hval].
  assert (Hd : In (fst p) (map fst out)) by (now apply in_map).
  apply Hin in Hd as (r & Hr & Hd). rewrite Hd.
  exact (diffs_of_nonempty rows r Hr).
Qed.

Lemma monthly_average_values_witness :
  exists out,
    compute_monthly_average_diff unordered_rows = Ok out
    /\ Forall (fun p =>
                 diffs_of (date_key (fst p)) unordered_rows <> []
                 /\ snd p
                    = SFdiv F64.prec F64.emax
                        (py_sum (diffs_of (date_key (fst p)) unordered_rows))
                        (F64.of_Z (Z.of_nat
                           (List.length
                              (diffs_of (date_key (fst p)) unordered_rows)))))
              out.
Proof.
  eexists. split; [vm_compute; reflexivity|].
  apply (monthly_average_values unordered_rows).
  - repeat constructor.
  - vm_compute. reflexivity.
Defined.

Lemma group_rows_same_month (rows rows' : list price_row) :
  Forall2 same_month_and_prices rows rows' ->
  group_rows rows = group_rows rows'.
Proof.
  intros H. unfold group_rows.
  enough (Hg : forall g0 : list (month_key * list float),
             fold_left
               (fun grouped '(date, open_price, close_price) =>
                  dict_append (year date, month date)
                              (F64.sub close_price open_price) grouped)
               rows g0
             = fold_left
                 (fun grouped '(date, open_price, close_price) =>
                    dict_append (year date, month date)
                                (F64.sub close_price open_price) grouped)
                 rows' g0) by apply Hg.
  induction H as [|r r' rows rows' Hr _ IH]; intros g0; cbn [fold_left];
    [reflexivity|].
  destruct r as [[d o] c], r' as [[d' o'] c'].
  destruct Hr as (Hy & Hm & Ho & Hc). cbn in Hy, Hm, Ho, Hc. subst o' c'.
  rewrite Hy, Hm. apply IH.
Qed.

(** X7: only the month of a row counts, not its day: rows that agree one by
    one in year, month and prices give the same result. *)
Theorem monthly_average_ignores_day (rows rows' : list price_row) :
  Forall2 same_month_and_prices rows rows' ->
  compute_monthly_average_diff rows = compute_monthly_average_diff rows'.
Proof.
  intros H. unfold compute_monthly_average_diff.
  now rewrite (group_rows_same_month rows rows' H).
Qed.

Lemma monthly_average_ignores_day_witness :
  compute_monthly_average_diff unordered_rows
  = compute_monthly_average_diff unordered_rows_other_days.
Proof.
  apply (monthly_average_ignores_day unordered_rows unordered_rows_other_days).
  repeat constructor.
Defined.

(** ** Division by one *)

Lemma bounded_fields (m : positive) (e : Z) :
  bounded F64.prec F64.emax m e = true ->
  fexp F64.prec F64.emax (Zpos (digits2_pos m) + e) = e /\ e <= 971.
Proof.
  unfold bounded, canonical_mantissa. rewrite andb_true_iff, Z.eqb_eq, Z.leb_le.
  unfold F64.emax, F64.prec. lia.
Qed.

Lemma shr_fexp_canonical (m : positive) (e : Z) :
  fexp F64.prec F64.emax (Zpos (digits2_pos m) + e) = e ->
  shr_fexp F64.prec F64.emax (Zpos m) e loc_Exact
  = (Build_shr_record (Zpos m) false false, e).
Proof.
  intros Hc. unfold shr_fexp. cbn [Zdigits2]. rewrite Hc, Z.sub_diag.
  reflexivity.
Qed.

Lemma binary_round_aux_canonical (s : bool) (m : positive) (e : Z) :
  bounded F64.prec F64.emax m e = true ->
  binary_round_aux F64.prec F64.emax s (Zpos m) e loc_Exact
  = S754_finite s m e.
Proof.
  intros Hb. destruct (bounded_fields m e Hb) as [Hc He].
  unfold binary_round_aux. rewrite (shr_fexp_canonical m e Hc).
  cbn [shr_m loc_of_shr_record round_nearest_even].
  rewrite (shr_fexp_canonical m e Hc). cbn [shr_m].
  replace (e <=? F64.emax - F64.prec) with true; [reflexivity|].
  symmetry. apply Z.leb_le. unfold F64.emax, F64.prec. lia.
Qed.

Lemma binary_round_aux_double (s : bool) (m : positive) (e : Z) :
  bounded F64.prec F64.emax m e = true ->
  fexp F64.prec F64.emax (Zpos (digits2_pos m) + e - 1) = e - 1 ->
  binary_round_aux F64.prec F64.emax s (Zpos m~0) (e - 1) loc_Exact
  = S754_finite s m e.
Proof.
  intros Hb H1. destruct (bounded_fields m e Hb) as [Hc He].
  unfold binary_round_aux.
  assert (Hs : shr_fexp F64.prec F64.emax (Zpos m~0) (e - 1) loc_Exact
               = (Build_shr_record (Zpos m) false false, e)).
  { unfold shr_fexp. cbn [Zdigits2 digits2_pos].
    replace (Zpos (Pos.succ (digits2_pos m)) + (e - 1))
      with (Zpos (digits2_pos m) + e) by lia.
    rewrite Hc. replace (e - (e - 1)) with 1 by lia.
    cbn. f_equal. lia. }
  rewrite Hs. cbn [shr_m loc_of_shr_record round_nearest_even].
  rewrite (shr_fexp_canonical m e Hc). cbn [shr_m].
  replace (e <=? F64.emax - F64.prec) with true; [reflexivity|].
  symmetry. apply Z.leb_le. unfold F64.emax, F64.prec. lia.
Qed.

Lemma div_eucl_mul (q b : Z) : b <> 0 -> Z.div_eucl (q * b) b = (q, 0).
Proof.
  intros Hb.
  pose proof (Z.div_mul q b Hb) as Hd. pose proof (Z.mod_mul q b Hb) as Hm.
  unfold Z.div, Z.modulo in Hd, Hm.
  destruct (Z.div_eucl (q * b) b) as [q' r]. now subst.
Qed.

Lemma SFdiv_one (s : bool) (m : positive) (e : Z) :
  bounded F64.prec F64.emax m e = true ->
  SFdiv F64.prec F64.emax (S754_finite s m e) (F64.of_Z 1)
  = S754_finite s m e.
Proof.
  intros Hb. destruct (bounded_fields m e Hb) as [Hc He].
  change (F64.of_Z 1) with (S754_finite false 4503599627370496 (-52)).
  unfold SFdiv, SFdiv_core_binary.
  change (Zdigits2 (Zpos 4503599627370496)) with 53.
  cbn [Zdigits2].
  replace (Zpos (digits2_pos m) + e - (53 + -52))
    with (Zpos (digits2_pos m) + e - 1) by lia.
  replace (e - -52) with (e + 52) by lia.
  assert (Hl : new_location (Zpos 4503599627370496) 0 = loc_Exact)
    by reflexivity.
  assert (Hcase : fexp F64.prec F64.emax (Zpos (digits2_pos m) + e - 1) = e - 1
                  \/ fexp F64.prec F64.emax (Zpos (digits2_pos m) + e - 1) = e).
  { unfold fexp, emin, F64.prec, F64.emax in *. lia. }
  destruct Hcase as [H1 | H1]; rewrite H1.
  - replace (Z.min (e - 1) (e + 52)) with (e - 1) by lia.
    replace (e + 52 - (e - 1)) with 53 by lia.
    rewrite Z.shiftl_mul_pow2 by lia.
    replace (Zpos m * 2 ^ 53) with (Zpos m~0 * Zpos 4503599627370496) by lia.
    rewrite div_eucl_mul by discriminate. rewrite Hl, xorb_false_r.
    now apply binary_round_aux_double.
  - replace (Z.min e (e + 52)) with e by lia.
    replace (e + 52 - e) with 52 by lia.
    rewrite Z.shiftl_mul_pow2 by lia.
    change (2 ^ 52) with (Zpos 4503599627370496).
    rewrite div_eucl_mul by discriminate. rewrite Hl, xorb_false_r.
    now apply binary_round_aux_canonical.
Qed.

(** The average of one float is that float, except that the negative zero
    becomes the positive one. *)
Lemma average_single (x : float) :
  valid_binary F64.prec F64.emax x = true ->
  x <> S754_zero true ->
  average [x] = x.
Proof.
  intros Hv Hz. unfold average, py_sum. cbn [fold_left List.length Z.of_nat].
  change (Z.pos (Pos.of_succ_nat 0)) with 1.
  destruct x as [[|]|s| |s m e]; try reflexivity; [congruence | |].
  - destruct s; reflexivity.
  - change (F64.add F64.zero (S754_finite s m e)) with (S754_finite s m e).
    now apply SFdiv_one.
Qed.

(** X17: a month with a single row gets the difference [close - open] of
    that row itself as its average (a negative zero apart, which comes out
    as the positive zero). *)
Theorem single_row_month
    (rows : list price_row) (out : list monthly_point)
    (p : monthly_point) (r : price_row) :
  Forall (fun r' => Datetime.valid (row_date r') = true) rows ->
  compute_monthly_average_diff rows = Ok out ->
  In p out ->
  filter (fun r' => key_eqb (row_key r') (date_key (fst p))) rows = [r] ->
  valid_binary F64.prec F64.emax (row_diff r) = true ->
  row_diff r <> S754_zero true ->
  snd p = row_diff r.
Proof.
  intros Hvalid Hout Hp Hone Hv Hz.
  destruct (compute_monthly_average_diff_spec rows Hvalid)
    as (out' & Hout' & _ & Hall & _).
  rewrite Hout in Hout'. injection Hout' as <-.
  rewrite Forall_forall in Hall. destruct (Hall p Hp) as [_ Hval].
  rewrite Hval. unfold diffs_of. rewrite Hone. cbn [map].
  now apply average_single.
Qed.

Lemma single_row_month_witness :
  snd (mkdatetime 2020 2 1, F64.of_Z 5)
  = row_diff (mkdatetime 2020 2 10, F64.of_Z 20, F64.of_Z 25).
Proof.
  apply (single_row_month unordered_rows
           [(mkdatetime 2020 1 1, F64.zero); (mkdatetime 2020 2 1, F64.of_Z 5)]
           (mkdatetime 2020 2 1, F64.of_Z 5)
           (mkdatetime 2020 2 10, F64.of_Z 20, F64.of_Z 25)).
  - repeat constructor.
  - vm_compute. reflexivity.
  - right. left. reflexivity.
  - reflexivity.
  - reflexivity.
  - discriminate.
Defined.

(** ** The scaler *)

Lemma map_result_Forall2 {A B : Type} (f : A -> result B) (xs : list A)
    (ys : list B) :
  map_result f xs = Ok ys -> Forall2 (fun x y => f x = Ok y) xs ys.
Proof.
  revert ys. induction xs as [|x xs IH]; intros ys H; cbn [map_result] in H.
  - injection H as <-. constructor.
  - bind_inv H as y Hy. bind_inv H as ys' Hys. injection H as <-.
    constructor; [exact Hy | now apply IH].
Qed.

(** X8: when [scale_points] returns, the scaled points stand one for one
    beside the points, each the pair of [date_to_x] of the date and
    [value_to_y] of the value under the extrema it returns with them. *)
Theorem scale_points_parallel (points : list monthly_point)
    (scaled : list (float * float)) (sc : scale) :
  scale_points points = Ok (scaled, sc) ->
  extrema points = Ok sc
  /\ List.length scaled = List.length points
  /\ Forall2 (scaled_as sc) points scaled.
Proof.
  intros H. apply scale_points_scale in H as [Hsc Hs].
  split; [exact Hsc|]. split; [exact (map_result_length _ _ _ Hs)|].
  apply map_result_Forall2 in Hs.
  eapply Forall2_impl; [|exact Hs]. intros p s Hp. unfold scale_point in Hp.
  bind_inv Hp as x Hx. bind_inv Hp as y Hy. injection Hp as <-.
  split; assumption.
Qed.

Lemma scale_points_parallel_witness :
  exists scaled,
    scale_points scenario_points = Ok (scaled, scenario_scale)
    /\ extrema scenario_points = Ok scenario_scale
    /\ List.length scaled = List.length scenario_points
    /\ Forall2 (scaled_as scenario_scale) scenario_points scaled.
Proof.
  eexists. split; [vm_compute; reflexivity|].
  apply (scale_points_parallel scenario_points). vm_compute. reflexivity.
Defined.

Lemma leb_refl (a : datetime) : Datetime.leb a a = true.
Proof. apply DateFacts.leb_spec. lia. Qed.

Lemma leb_trans (a b c : datetime) :
  Datetime.leb a b = true -> Datetime.leb b c = true ->
  Datetime.leb a c = true.
Proof. rewrite !DateFacts.leb_spec. lia. Qed.

Lemma fold_min_date_le (rest : list datetime) :
  forall x,
    let m := fold_left
               (fun cur item => if Datetime.ltb item cur then item else cur)
               rest x in
    Datetime.leb m x = true
    /\ Forall (fun d => Datetime.leb m d = true) rest.
Proof.
  induction rest as [|y rest IH]; intros x; cbn [fold_left].
  - split; [apply leb_refl | constructor].
  - destruct (Datetime.ltb y x) eqn:E.
    + destruct (IH y) as [Hy Hall]. split; [|constructor; assumption].
      apply (leb_trans _ y); [exact Hy|].
      apply DateFacts.ltb_spec in E. apply DateFacts.leb_spec. lia.
    + destruct (IH x) as [Hx Hall]. split; [exact Hx|].
      constructor; [|exact Hall].
      apply (leb_trans _ x); [exact Hx | now apply DateFacts.ltb_false].
Qed.

Lemma fold_max_date_ge (rest : list datetime) :
  forall x,
    let m := fold_left
               (fun cur item => if Datetime.ltb cur item then item else cur)
               rest x in
    Datetime.leb x m = true
    /\ Forall (fun d => Datetime.leb d m = true) rest.
Proof.
  induction rest as [|y rest IH]; intros x; cbn [fold_left].
  - split; [apply leb_refl | constructor].
  - destruct (Datetime.ltb x y) eqn:E.
    + destruct (IH y) as [Hy Hall]. split; [|constructor; assumption].
      apply (leb_trans _ y); [|exact Hy].
      apply DateFacts.ltb_spec in E. apply DateFacts.leb_spec. lia.
    + destruct (IH x) as [Hx Hall]. split; [exact Hx|].
      constructor; [|exact Hall].
      apply (leb_trans _ x); [now apply DateFacts.ltb_false | exact Hx].
Qed.

Lemma extrema_dates_between (points : list monthly_point) (sc : scale) :
  extrema points = Ok sc ->
  In (min_date sc) (map fst points)
  /\ In (max_date sc) (map fst points)
  /\ Forall (fun p => Datetime.leb (min_date sc) (fst p) = true
                      /\ Datetime.leb (fst p) (max_date sc) = true)
            points.
Proof.
  intros H. destruct (extrema_dates _ _ H) as [Hmin Hmax].
  split; [exact Hmin|]. split; [exact Hmax|].
  unfold extrema in H.
  bind_inv H as lo_date Hlo. bind_inv H as hi_date Hhi.
  bind_inv H as lo_value Hlv. bind_inv H as hi_value Hhv.
  destruct (widen lo_value hi_value) as [lo hi]. injection H as <-.
  cbn [min_date max_date].
  destruct points as [|p points]; [discriminate|].
  cbn [map py_min py_max] in Hlo, Hhi.
  injection Hlo as <-. injection Hhi as <-.
  destruct (fold_min_date_le (map fst points) (fst p)) as [Hm1 Hm2].
  destruct (fold_max_date_ge (map fst points) (fst p)) as [HM1 HM2].
  rewrite Forall_map in Hm2, HM2.
  constructor; [split; assumption|].
  rewrite Forall_forall in Hm2, HM2 |- *. intros q Hq. split; auto.
Qed.

(** X9: the two dates among the extrema are dates of the points, and every
    date of the points lies between them. *)
Theorem extrema_dates_bound (points : list monthly_point) (sc : scale) :
  extrema points = Ok sc ->
  In (min_date sc) (map fst points)
  /\ In (max_date sc) (map fst points)
  /\ Forall (fun p => Datetime.leb (min_date sc) (fst p) = true
                      /\ Datetime.leb (fst p) (max_date sc) = true)
            points.
Proof. apply extrema_dates_between. Qed.

Lemma extrema_dates_bound_witness :
  In (min_date scenario_scale) (map fst scenario_points)
  /\ In (max_date scenario_scale) (map fst scenario_points)
  /\ Forall (fun p =>
               Datetime.leb (min_date scenario_scale) (fst p) = true
               /\ Datetime.leb (fst p) (max_date scenario_scale) = true)
            scenario_points.
Proof.
  apply (extrema_dates_bound scenario_points scenario_scale).
  vm_compute. reflexivity.
Defined.

(** A finite float divided by itself is 1, up to the sign. *)
Lemma SFdiv_self (s s' : bool) (m : positive) (e : Z) :
  SFdiv F64.prec F64.emax (S754_finite s m e) (S754_finite s' m e)
  = (if xorb s s' then SFopp (F64.of_Z 1) else F64.of_Z 1).
Proof.
  unfold SFdiv, SFdiv_core_binary.
  replace (Zdigits2 (Zpos m) + e - (Zdigits2 (Zpos m) + e)) with 0 by lia.
  replace (e - e) with 0 by lia.
  change (Z.min (fexp F64.prec F64.emax 0) 0) with (-53).
  change (0 - -53) with 53.
  rewrite Z.shiftl_mul_pow2 by lia.
  assert (Hq : Z.div_eucl (Zpos m * 2 ^ 53) (Zpos m) = (2 ^ 53, 0)).
  { rewrite (Z.mul_comm (Zpos m)).
    pose proof (Z.div_mul (2 ^ 53) (Zpos m)) as Hd.
    pose proof (Z.mod_mul (2 ^ 53) (Zpos m)) as Hm.
    unfold Z.div, Z.modulo in Hd, Hm.
    destruct (Z.div_eucl (2 ^ 53 * Zpos m) (Zpos m)) as [q r].
    rewrite Hd, Hm by discriminate. reflexivity. }
  rewrite Hq.
  assert (Hl : new_location (Zpos m) 0 = loc_Exact).
  { unfold new_location. destruct (Z.even (Zpos m)); reflexivity. }
  rewrite Hl. destruct (xorb s s'); vm_compute; reflexivity.
Qed.

Lemma int_truediv_self (n : Z) :
  n <> 0 -> int_truediv n n = Ok (F64.of_Z 1).
Proof.
  intros Hn. unfold int_truediv.
  rewrite (proj2 (Z.eqb_neq n 0) Hn), xorb_nilpotent.
  destruct n as [|p|p]; [congruence | |]; cbn [Z.abs Z.to_pos];
    now rewrite SFdiv_self.
Qed.

(** X10: the earliest date is drawn at the left margin, and the latest
    date, when it is another day, at the right end of the date axis. *)
Theorem date_axis_ends (sc : scale) :
  date_to_x sc (min_date sc) = Ok x_left
  /\ (Datetime.days_between (max_date sc) (min_date sc) <> 0 ->
      date_to_x sc (max_date sc) = Ok x_right).
Proof.
  unfold date_to_x.
  set (days := Datetime.days_between (max_date sc) (min_date sc)).
  split.
  - unfold Datetime.days_between at 1. rewrite Z.sub_diag.
    unfold int_truediv.
    destruct (Z.eqb_spec days 0) as [_|Hd].
    + reflexivity.
    + rewrite (proj2 (Z.eqb_neq days 0) Hd). cbn [Z.abs bind].
      destruct (xorb (0 <? 0) (days <? 0)); reflexivity.
  - intros Hd. rewrite (proj2 (Z.eqb_neq days 0) Hd).
    rewrite (int_truediv_self days Hd). reflexivity.
Qed.

Lemma date_axis_ends_witness :
  date_to_x scenario_scale (min_date scenario_scale) = Ok x_left
  /\ date_to_x scenario_scale (max_date scenario_scale) = Ok x_right.
Proof.
  split.
  - apply (proj1 (date_axis_ends scenario_scale)).
  - apply (proj2 (date_axis_ends scenario_scale)). discriminate.
Defined.

(** X11: when the value span is a finite float other than zero, the
    smallest value is drawn on the bottom axis and the largest at the top
    of the plot area: larger values stand higher. *)
Theorem value_axis_ends (sc : scale) (s : bool) (m : positive) (e : Z) :
  F64.sub (max_value sc) (min_value sc) = S754_finite s m e ->
  value_to_y sc (min_value sc) = Ok y_bottom
  /\ value_to_y sc (max_value sc) = Ok y_top.
Proof.
  intros Hspan. unfold value_to_y, F64.truediv. rewrite Hspan.
  cbn [F64.is_zero bind]. split.
  - assert (Hmin : F64.sub (min_value sc) (min_value sc) = S754_zero false).
    { apply sub_self.
      destruct (max_value sc) as [sa|sa| |sa ma ea],
               (min_value sc) as [sb|sb| |sb mb eb];
        cbv beta iota delta [F64.sub SFsub] in Hspan;
        try discriminate; try (destruct sa, sb; discriminate); eauto. }
    rewrite Hmin. destruct s; reflexivity.
  - rewrite SFdiv_self, xorb_nilpotent. reflexivity.
Qed.

Lemma value_axis_ends_witness :
  value_to_y scenario_scale (min_value scenario_scale) = Ok y_bottom
  /\ value_to_y scenario_scale (max_value scenario_scale) = Ok y_top.
Proof.
  apply (value_axis_ends scenario_scale false 5629499534213120 (-50)).
  reflexivity.
Defined.

(** ** The renderer *)

Lemma append_nil_r (s : string) : s ++ "" = s.
Proof. induction s as [|c s IH]; simpl; [reflexivity | now rewrite IH]. Qed.

Lemma append_assoc (a b c : string) : (a ++ b) ++ c = a ++ b ++ c.
Proof. induction a as [|x a IH]; simpl; [reflexivity | now rewrite IH]. Qed.

Lemma concat_empty_cons (s : string) (l : list string) :
  String.concat "" (s :: l) = s ++ String.concat "" l.
Proof.
  destruct l as [|t l]; cbn [String.concat];
    [now rewrite append_nil_r | reflexivity].
Qed.

Lemma concat_space_cons (l : list string) :
  forall s,
    String.concat " " (s :: l)
    = s ++ String.concat "" (map (fun t => " " ++ t) l).
Proof.
  induction l as [|t l IH]; intros s.
  - cbn. now rewrite append_nil_r.
  - change (String.concat " " (s :: t :: l))
      with (s ++ " " ++ String.concat " " (t :: l)).
    rewrite IH. cbn [map]. rewrite concat_empty_cons.
    now rewrite append_assoc.
Qed.

(** X12: the data path is empty for no point; otherwise it moves ([M]) to
    the first scaled point and draws a line ([L]) to each further one, in
    their order, the coordinates printed with two decimals. *)
Theorem path_data_moves_then_lines :
  path_data_of [] = ""
  /\ forall (first : float * float) (rest : list (float * float)),
      path_data_of (first :: rest)
      = "M" ++ path_point first
          ++ String.concat "" (map (fun p => " L" ++ path_point p) rest).
Proof.
  split; [reflexivity|]. intros [x y] rest. unfold path_data_of.
  cbn [map]. rewrite concat_space_cons, map_map.
  cbn [String.append]. unfold path_point at 1. cbn [fst snd].
  rewrite !append_assoc. cbn [String.append]. do 5 f_equal.
  apply map_ext. intros [x' y']. reflexivity.
Qed.

Lemma svg_circles_map (scaled : list (float * float)) :
  forall points : list monthly_point,
    List.length scaled = List.length points ->
    svg_circles scaled points = map circle_of scaled.
Proof.
  unfold svg_circles.
  induction scaled as [|[x y] scaled IH]; intros [|p points] Hlen;
    try discriminate; cbn [combine map]; [reflexivity|].
  f_equal. apply IH. now injection Hlen.
Qed.

Lemma filter_circle_map (scaled : list (float * float)) :
  filter is_circle (map circle_of scaled) = map circle_of scaled.
Proof.
  induction scaled as [|p l IH]; cbn; [reflexivity | now rewrite IH].
Qed.

Lemma filter_circle_value_entries (l : list (float * float)) :
  filter is_circle (flat_map value_tick_entries l) = [].
Proof. induction l as [|p l IH]; simpl; [reflexivity | exact IH]. Qed.

Lemma date_ticks_no_circle (sc : scale) (fuel : nat) :
  forall (current : datetime) (lines : list svg_line),
    date_ticks fuel sc current = Ok lines -> filter is_circle lines = [].
Proof.
  induction fuel as [|fuel IH]; intros cur lines H; cbn [date_ticks] in H;
    [discriminate|].
  destruct (Datetime.leb cur (max_date sc)).
  - bind_inv H as x Hx. bind_inv H as next_month Hn. bind_inv H as rest Hr.
    injection H as <-. simpl. exact (IH _ _ Hr).
  - injection H as <-. reflexivity.
Qed.

(** X13: the lines of the chart stand in this order: the eight lines of
    the frame, the data path and the titles; one circle for each point, in
    the order of the points, at its scaled coordinates; the twelve entries
    of the value axis; the entries of the date axis, marks and labels only;
    and the closing tag. *)
Theorem svg_lines_layout
    (points : list monthly_point) (lines : list svg_line) :
  svg_lines points = Ok lines ->
  exists scaled sc ys date_lines,
    scale_points points = Ok (scaled, sc)
    /\ map_result (value_to_y sc) (map (tick_value sc) tick_indices) = Ok ys
    /\ filter is_date_tick date_lines = date_lines
    /\ lines = (svg_head (path_data_of scaled) ++ map circle_of scaled
                ++ flat_map value_tick_entries
                     (combine (map (tick_value sc) tick_indices) ys)
                ++ date_lines ++ [SvgClose])%list
    /\ filter is_circle lines = map circle_of scaled
    /\ List.length (filter is_circle lines) = List.length points.
Proof.
  unfold svg_lines. intros H. bind_inv H as r Hr. destruct r as [scaled sc].
  rewrite value_ticks_eq in H. cbn [bind] in H.
  bind_inv H as tick_lines Htl. bind_inv H as current Hcur.
  bind_inv H as date_lines Hdl. injection H as <-.
  destruct (value_tick_lines_concat _ _ _ Htl) as (ys & Hys & Hc).
  destruct (date_ticks_entries _ _ _ _ Hdl) as [_ Hd].
  pose proof (date_ticks_no_circle _ _ _ _ Hdl) as Hnc.
  destruct (scale_points_scale _ _ _ Hr) as [_ Hs].
  pose proof (map_result_length _ _ _ Hs) as Hlen.
  exists scaled, sc, ys, date_lines.
  fold (svg_head (path_data_of scaled)). fold (svg_circles scaled points).
  rewrite Hc, (svg_circles_map scaled points Hlen).
  assert (Hf : filter is_circle
                 (svg_head (path_data_of scaled) ++ map circle_of scaled
                  ++ flat_map value_tick_entries
                       (combine (map (tick_value sc) tick_indices) ys)
                  ++ date_lines ++ [SvgClose])%list
               = map circle_of scaled).
  { rewrite !filter_app, filter_circle_map, filter_circle_value_entries, Hnc.
    simpl. now rewrite app_nil_r. }
  split; [exact Hr|]. split; [exact Hys|]. split; [exact Hd|].
  split; [reflexivity|]. split; [exact Hf|].
  etransitivity; [exact (f_equal (@List.length svg_line) Hf)|].
  rewrite length_map. exact Hlen.
Qed.

Lemma svg_lines_layout_witness :
  exists lines scaled sc ys date_lines,
    svg_lines scenario_points = Ok lines
    /\ scale_points scenario_points = Ok (scaled, sc)
    /\ map_result (value_to_y sc) (map (tick_value sc) tick_indices) = Ok ys
    /\ filter is_date_tick date_lines = date_lines
    /\ lines = (svg_head (path_data_of scaled) ++ map circle_of scaled
                ++ flat_map value_tick_entries
                     (combine (map (tick_value sc) tick_indices) ys)
                ++ date_lines ++ [SvgClose])%list
    /\ filter is_circle lines = map circle_of scaled
    /\ List.length (filter is_circle lines) = List.length scenario_points.
Proof.
  eexists.
  assert (H : svg_lines scenario_points = Ok _) by (vm_compute; reflexivity).
  destruct (svg_lines_layout scenario_points _ H)
    as (scaled & sc & ys & date_lines & Hrest).
  exists scaled, sc, ys, date_lines. split; [exact H | exact Hrest].
Defined.

(** ** When the renderer returns *)

Lemma leb_month_index (a b : datetime) :
  1 <= month a <= 12 -> day a = 1 -> Datetime.valid b = true ->
  (Datetime.leb a b = true <-> month_index a <= month_index b).
Proof.
  intros Hm Hd Hv. apply DateFacts.valid_fields in Hv as (_ & Hmb & Hdb).
  rewrite DateFacts.leb_spec. unfold month_index. lia.
Qed.

Lemma add_months_fields (d : datetime) (k : Z) :
  1 <= month (add_months d k) <= 12 /\ day (add_months d k) = 1.
Proof.
  unfold add_months. cbn [month day]. split; [|reflexivity].
  Z.div_mod_to_equations. lia.
Qed.

(** The date loop returns only when none of its ticks falls in the last
    three months of 9999. *)
Lemma date_ticks_ok_in_range (sc : scale) :
  Datetime.valid (max_date sc) = true ->
  forall (fuel : nat) (current : datetime) (lines : list svg_line),
    Datetime.valid current = true -> day current = 1 ->
    date_ticks fuel sc current = Ok lines ->
    ticks_in_range current (max_date sc).
Proof.
  intros Hvmax. induction fuel as [|fuel IH]; intros cur lines Hv Hd H;
    cbn [date_ticks] in H; [discriminate|].
  pose proof (DateFacts.valid_fields _ Hv) as (Hy & Hm & _).
  destruct (Datetime.leb cur (max_date sc)) eqn:Hle.
  - bind_inv H as x Hx. bind_inv H as next Hn. bind_inv H as rest Hr.
    destruct (next_quarter_inv _ _ Hv Hd Hn) as [-> Hvn].
    pose proof (IH _ _ Hvn eq_refl Hr) as Hnext.
    intros [|k] Hk.
    + change (3 * Z.of_nat 0) with 0.
      rewrite DateFacts.add_months_0 by assumption.
      pose proof (DateFacts.month_index_add_months cur 3) as Hidx.
      apply DateFacts.valid_fields in Hvn as (Hyn & Hmn & _).
      unfold month_index in Hidx. apply DateFacts.ltb_spec.
      cbn [last_quarter_limit year month day]. lia.
    + replace (3 * Z.of_nat (S k)) with (3 + 3 * Z.of_nat k) in * by lia.
      rewrite <- DateFacts.add_months_add in *. now apply Hnext.
  - intros k Hk. exfalso.
    destruct (add_months_fields cur (3 * Z.of_nat k)) as [Hmk Hdk].
    apply (leb_month_index _ _ Hmk Hdk Hvmax) in Hk.
    rewrite DateFacts.month_index_add_months in Hk.
    assert (Hc : Datetime.leb cur (max_date sc) = true)
      by (apply (leb_month_index _ _ Hm Hd Hvmax); lia).
    congruence.
Qed.

(** With fuel for the months up to the latest date, the date loop raises
    nothing but ValueError. *)
Lemma date_ticks_raises (sc : scale) :
  Datetime.valid (max_date sc) = true ->
  forall (fuel : nat) (current : datetime) (e : exn),
    Datetime.valid current = true -> day current = 1 ->
    (1 <= fuel)%nat ->
    month_index (max_date sc) - month_index current < 3 * Z.of_nat fuel - 3 ->
    date_ticks fuel sc current = Raise e -> e = ValueError.
Proof.
  intros Hvmax. induction fuel as [|fuel IH]; intros cur e Hv Hd Hf Hm H;
    [lia|].
  cbn [date_ticks] in H.
  destruct (Datetime.leb cur (max_date sc)) eqn:Hle; [|discriminate].
  assert (Hidx : month_index cur <= month_index (max_date sc)).
  { pose proof (DateFacts.valid_fields _ Hv) as (_ & Hmo & _).
    now apply (leb_month_index _ _ Hmo Hd Hvmax). }
  destruct (date_to_x_ok sc cur) as [x Hx]. rewrite Hx in H. cbn [bind] in H.
  destruct (next_quarter cur) as [next|e1] eqn:Hn; cbn [bind] in H.
  - destruct (next_quarter_inv _ _ Hv Hd Hn) as [-> Hvn].
    destruct (date_ticks fuel sc (add_months cur 3)) as [rest|e2] eqn:Hr;
      cbn [bind] in H; [discriminate|].
    injection H as <-. apply (IH (add_months cur 3)); try assumption.
    + reflexivity.
    + lia.
    + rewrite DateFacts.month_index_add_months. lia.
  - injection H as <-. unfold next_quarter, Datetime.make in Hn.
    destruct (10 <=? month cur);
      match type of Hn with
      | (if ?b then _ else _) = _ => destruct b; congruence
      end.
Qed.

Lemma zero_span_raises (points : list monthly_point) (sc : scale) :
  extrema points = Ok sc ->
  F64.is_zero (F64.sub (max_value sc) (min_value sc)) = true ->
  scale_points points = Raise ZeroDivisionError.
Proof.
  intros Hsc Hz. unfold scale_points. rewrite Hsc. cbn [bind].
  destruct points as [|p points]; [discriminate|].
  cbn [map_result]. unfold scale_point at 1.
  destruct (date_to_x_ok sc (fst p)) as [x ->]. cbn [bind].
  unfold value_to_y, F64.truediv. rewrite Hz. reflexivity.
Qed.

(** X14: the outcome of [build_svg] on points with valid dates.  When the
    value span is zero it raises ZeroDivisionError.  Otherwise it returns
    a chart exactly when none of the date ticks up to the latest date
    falls in the last three months of 9999, and when it raises, it raises
    ValueError. *)
Theorem build_svg_outcome (points : list monthly_point) (sc : scale) :
  extrema points = Ok sc ->
  Forall (fun p => Datetime.valid (fst p) = true) points ->
  (F64.is_zero (F64.sub (max_value sc) (min_value sc)) = true ->
   build_svg points = Raise ZeroDivisionError)
  /\ (F64.is_zero (F64.sub (max_value sc) (min_value sc)) = false ->
      ((exists doc, build_svg points = Ok doc)
       <-> ticks_in_range (first_of_month (min_date sc)) (max_date sc))
      /\ forall e, build_svg points = Raise e -> e = ValueError).
Proof.
  intros Hsc Hvalid.
  destruct (extrema_dates _ _ Hsc) as [Hmin Hmax].
  pose proof Hvalid as Hall. rewrite Forall_forall in Hall.
  assert (Hvmin : Datetime.valid (min_date sc) = true).
  { apply in_map_iff in Hmin as (p & <- & Hp). now apply Hall. }
  assert (Hvmax : Datetime.valid (max_date sc) = true).
  { apply in_map_iff in Hmax as (p & <- & Hp). now apply Hall. }
  pose proof (DateFacts.valid_fields _ Hvmin) as (Hy & Hm & _).
  pose proof (DateFacts.valid_fields _ Hvmax) as (HY & HM & _).
  assert (Hvfirst : Datetime.valid (first_of_month (min_date sc)) = true)
    by (now apply DateFacts.valid_first_day).
  split.
  - intros Hz. unfold build_svg, svg_lines.
    now rewrite (zero_span_raises _ _ Hsc Hz).
  - intros Hspan.
    destruct (scale_points_ok _ _ Hsc Hspan) as [scaled Hscaled].
    destruct (map_result_exists (value_to_y sc)
                (map (tick_value sc) tick_indices)) as [ys Hys];
      [intros v _; now apply value_to_y_ok|].
    assert (Hrun : svg_lines points
                   = (date_lines <- date_ticks (date_ticks_fuel sc) sc
                                      (first_of_month (min_date sc)) ;;
                      Ok (svg_head (path_data_of scaled)
                          ++ svg_circles scaled points
                          ++ List.concat
                               (map value_tick_entries
                                  (combine (map (tick_value sc) tick_indices)
                                           ys))
                          ++ date_lines ++ [SvgClose])%list)).
    { unfold svg_lines. rewrite Hscaled. cbn [bind].
      rewrite value_ticks_eq. cbn [bind]. fold tick_indices.
      rewrite (value_tick_lines_ok sc _ _ Hys). cbn [bind].
      rewrite (DateFacts.make_first_day _ _ Hy Hm). reflexivity. }
    split; [split|].
    + intros [doc Hdoc]. unfold build_svg in Hdoc. rewrite Hrun in Hdoc.
      destruct (date_ticks (date_ticks_fuel sc) sc
                  (first_of_month (min_date sc))) as [dl|e] eqn:Hdl;
        [|discriminate].
      exact (date_ticks_ok_in_range sc Hvmax _ _ _ Hvfirst eq_refl Hdl).
    + intros Hrange.
      destruct (svg_lines_ok points sc Hsc Hspan Hvalid Hrange)
        as (? & ? & ? & ? & _ & _ & _ & _ & Hlines).
      unfold build_svg. rewrite Hlines. cbn [bind]. eauto.
    + intros e He. unfold build_svg in He. rewrite Hrun in He.
      destruct (date_ticks (date_ticks_fuel sc) sc
                  (first_of_month (min_date sc))) as [dl|e'] eqn:Hdl;
        [discriminate|].
      cbn [bind] in He. injection He as <-.
      apply (date_ticks_raises sc Hvmax _ _ _ Hvfirst eq_refl) in Hdl;
        [exact Hdl | unfold date_ticks_fuel; lia |].
      unfold date_ticks_fuel, month_index, first_of_month. cbn [year month].
      lia.
Qed.

Lemma build_svg_outcome_witness :
  (build_svg huge_flat_points = Raise ZeroDivisionError)
  /\ ((exists doc, build_svg scenario_points = Ok doc)
      <-> ticks_in_range (first_of_month (min_date scenario_scale))
                         (max_date scenario_scale)).
Proof.
  split.
  - assert (H1 : extrema huge_flat_points = Ok huge_flat_scale)
      by (vm_compute; reflexivity).
    assert (H2 : Forall (fun p => Datetime.valid (fst p) = true)
                        huge_flat_points) by (repeat constructor).
    apply (proj1 (build_svg_outcome huge_flat_points huge_flat_scale H1 H2)).
    vm_compute. reflexivity.
  - assert (H1 : extrema scenario_points = Ok scenario_scale)
      by (vm_compute; reflexivity).
    assert (H2 : Forall (fun p => Datetime.valid (fst p) = true)
                        scenario_points) by (repeat constructor).
    apply (proj2 (build_svg_outcome scenario_points scenario_scale H1 H2)).
    reflexivity.
Defined.

(** ** The script as a whole *)

Lemma mkdir_files (w w1 : world) (path : string) :
  mkdir w path = Ok w1 ->
  files w1 = files w /\ stdout w1 = stdout w /\ is_dir w1 path = true.
Proof.
  unfold mkdir. destruct (is_dir w path) eqn:Hd.
  - intros H. injection H as <-. auto.
  - destruct (is_file w path); [discriminate|]. intros H. injection H as <-.
    repeat split. unfold is_dir. cbn [dirs existsb].
    now rewrite String.eqb_refl.
Qed.



Lemma append_cancel_l (a b c : string) : a ++ b = a ++ c -> b = c.
Proof.
  induction a as [|x a IH]; simpl; [auto|]. intros H. injection H as H. auto.
Qed.

Lemma append_not_slash (a : string) : a ++ "/plots" <> "/".
Proof.
  destruct a as [|x [|y a]]; simpl; discriminate.
Qed.

(** The output file is not the input file. *)
Lemma output_file_not_data_path (repo_root : string) :
  output_file repo_root <> data_path repo_root.
Proof.
  unfold output_file, output_dir, data_path, path_join.
  destruct (String.eqb_spec repo_root "/") as [-> | Hroot].
  - vm_compute. discriminate.
  - change (repo_root ++ "/" ++ "plots") with (repo_root ++ "/plots").
    destruct (String.eqb_spec (repo_root ++ "/plots") "/") as [Hp | _].
    + now apply append_not_slash in Hp.
    + rewrite append_assoc. intros H. apply append_cancel_l in H.
      discriminate.
Qed.

Lemma file_text_write (w w2 : world) (path text other : string) :
  write_text w path text = Ok w2 ->
  file_text (files w2) path = Some text
  /\ (other <> path -> file_text (files w2) other = file_text (files w) other)
  /\ dirs w2 = dirs w /\ stdout w2 = stdout w.
Proof.
  unfold write_text. destruct (is_dir w path); [discriminate|].
  intros H. injection H as <-. cbn [files dirs stdout file_text].
  rewrite String.eqb_refl. repeat split.
  intros Hne. destruct (String.eqb_spec path other); [congruence | reflexivity].
Qed.

(** X16: when [main] ends normally, the input file existed and the chart
    of its text is the text of the output file; every other file, the input
    file among them, is as before; the directory of the output exists; and
    one line has been printed, which names the output file. *)
Theorem main_success
    (repo_root : string) (csv_rows : string -> list row) (w : world) :
  snd (main repo_root csv_rows w) = Ok tt ->
  exists text svg,
    file_text (files w) (data_path repo_root) = Some text
    /\ chart_of_text csv_rows text = Ok svg
    /\ file_text (files (fst (main repo_root csv_rows w)))
                 (output_file repo_root) = Some svg
    /\ (forall path, path <> output_file repo_root ->
          file_text (files (fst (main repo_root csv_rows w))) path
          = file_text (files w) path)
    /\ file_text (files (fst (main repo_root csv_rows w)))
                 (data_path repo_root) = Some text
    /\ is_dir (fst (main repo_root csv_rows w)) (output_dir repo_root) = true
    /\ stdout (fst (main repo_root csv_rows w))
       = (stdout w
          ++ [("Saved plot to " ++ output_file repo_root)%string])%list.
Proof.
  unfold main, main_body.
  destruct (negb (path_exists w (data_path repo_root))); [discriminate|].
  unfold read_text.
  destruct (file_text (files w) (data_path repo_root)) as [text|] eqn:Htext.
  2: { destruct (is_dir w (data_path repo_root)); discriminate. }
  cbn [bind].
  destruct (chart_of_text csv_rows text) as [svg|e1] eqn:Hsvg; [|discriminate].
  destruct (mkdir w (output_dir repo_root)) as [w1|e2] eqn:Hmk; [|discriminate].
  destruct (mkdir_files _ _ _ Hmk) as (Hf1 & Hs1 & Hd1).
  destruct (write_text w1 (output_file repo_root) svg) as [w2|e3] eqn:Hwr;
    [|discriminate].
  intros _. cbn [fst print files dirs stdout].
  assert (Hother : forall path, path <> output_file repo_root ->
                     file_text (files w2) path = file_text (files w) path).
  { intros path Hne.
    destruct (file_text_write w1 w2 _ svg path Hwr) as (_ & H & _).
    rewrite (H Hne). now rewrite Hf1. }
  destruct (file_text_write w1 w2 _ svg (data_path repo_root) Hwr)
    as (Hout & _ & Hd2 & Hs2).
  exists text, svg. split; [reflexivity|]. split; [exact Hsvg|].
  split; [exact Hout|]. split; [exact Hother|]. split.
  - rewrite Hother; [exact Htext|].
    intros H. symmetry in H. now apply output_file_not_data_path in H.
  - split.
    + unfold is_dir, print in *. cbn [dirs] in *. now rewrite Hd2.
    + unfold print. cbn [stdout]. now rewrite Hs2, Hs1.
Qed.

Lemma main_success_witness :
  snd (main "/repo" scenario_reader scenario_world) = Ok tt
  /\ exists text svg,
      file_text (files scenario_world) (data_path "/repo") = Some text
      /\ chart_of_text scenario_reader text = Ok svg
      /\ file_text (files (fst (main "/repo" scenario_reader scenario_world)))
                   (output_file "/repo") = Some svg
      /\ (forall path, path <> output_file "/repo" ->
            file_text (files (fst (main "/repo" scenario_reader scenario_world)))
                      path
            = file_text (files scenario_world) path)
      /\ file_text (files (fst (main "/repo" scenario_reader scenario_world)))
                   (data_path "/repo") = Some text
      /\ is_dir (fst (main "/repo" scenario_reader scenario_world))
                (output_dir "/repo") = true
      /\ stdout (fst (main "/repo" scenario_reader scenario_world))
         = (stdout scenario_world
            ++ [("Saved plot to " ++ output_file "/repo")%string])%list.
Proof.
  assert (H : snd (main "/repo" scenario_reader scenario_world) = Ok tt)
    by (vm_compute; reflexivity).
  split; [exact H|].
  exact (main_success "/repo" scenario_reader scenario_world H).
Defined.

(** ** The number of date ticks, and the lowest value tick *)

Lemma flat_map_date_entries_length (l : list (datetime * float)) :
  List.length (flat_map date_tick_entries l) = (2 * List.length l)%nat.
Proof. induction l as [|p l IH]; simpl; [reflexivity | rewrite IH; lia]. Qed.

(** X18: when [build_svg] returns, the date axis bears one tick mark and
    one label for every three months, begun or whole, from the month of the
    earliest date to the month of the latest. *)
Theorem date_tick_count (points : list monthly_point) (sc : scale) :
  extrema points = Ok sc ->
  F64.is_zero (F64.sub (max_value sc) (min_value sc)) = false ->
  Forall (fun p => Datetime.valid (fst p) = true) points ->
  ticks_in_range (first_of_month (min_date sc)) (max_date sc) ->
  exists lines,
    svg_lines points = Ok lines
    /\ List.length (filter is_date_tick lines)
       = (2 * Z.to_nat ((month_index (max_date sc) - month_index (min_date sc))
                        / 3 + 1))%nat.
Proof.
  intros Hsc Hspan Hvalid Hrange.
  destruct (svg_lines_ok points sc Hsc Hspan Hvalid Hrange)
    as (scaled & ys & n & xs & _ & Hxs & Hall & Hstop & Hlines).
  eexists. split; [exact Hlines|].
  rewrite filter_date_ticks_lines, flat_map_date_entries_length.
  apply map_result_length in Hxs.
  assert (Hq : List.length (quarter_starts (first_of_month (min_date sc)) n) = n)
    by (unfold quarter_starts; now rewrite length_map, length_seq).
  rewrite length_combine, Hxs, Hq, Nat.min_id. f_equal.
  destruct (extrema_dates_between _ _ Hsc) as (Hmin & Hmax & Hbound).
  rewrite Forall_forall in Hvalid, Hbound.
  assert (Hvmin : Datetime.valid (min_date sc) = true).
  { apply in_map_iff in Hmin as (p & <- & Hp). now apply Hvalid. }
  assert (Hvmax : Datetime.valid (max_date sc) = true).
  { apply in_map_iff in Hmax as (p & <- & Hp). now apply Hvalid. }
  assert (Hle : Datetime.leb (min_date sc) (max_date sc) = true).
  { apply in_map_iff in Hmax as (p & <- & Hp). now apply Hbound. }
  pose proof (DateFacts.valid_fields _ Hvmin) as (_ & Hm & _).
  pose proof (DateFacts.valid_fields _ Hvmax) as (_ & HM & _).
  set (first := first_of_month (min_date sc)) in *.
  assert (Hidx : month_index first <= month_index (max_date sc)).
  { apply DateFacts.leb_spec in Hle. unfold first, month_index.
    cbn [first_of_month year month]. lia. }
  assert (Hfirst : month_index first = month_index (min_date sc))
    by reflexivity.
  assert (Hup : ~ (month_index first + 3 * Z.of_nat n
                   <= month_index (max_date sc))).
  { intros Hc.
    destruct (add_months_fields first (3 * Z.of_nat n)) as [Hmk Hdk].
    assert (Hl : Datetime.leb (add_months first (3 * Z.of_nat n))
                              (max_date sc) = true).
    { apply (leb_month_index _ _ Hmk Hdk Hvmax).
      now rewrite DateFacts.month_index_add_months. }
    congruence. }
  assert (Hlow : (1 <= n)%nat
                 /\ month_index first + 3 * (Z.of_nat n - 1)
                    <= month_index (max_date sc)).
  { destruct n as [|n]; [exfalso; apply Hup; simpl; lia|].
    split; [lia|]. rewrite Forall_forall in Hall.
    assert (Hin : In (add_months first (3 * Z.of_nat n))
                     (quarter_starts first (S n))).
    { unfold quarter_starts. apply in_map_iff. exists n.
      split; [reflexivity | apply in_seq; lia]. }
    apply Hall in Hin.
    destruct (add_months_fields first (3 * Z.of_nat n)) as [Hmk Hdk].
    apply (leb_month_index _ _ Hmk Hdk Hvmax) in Hin.
    rewrite DateFacts.month_index_add_months in Hin. lia. }
  destruct Hlow as [Hn Hlow]. rewrite <- Hfirst.
  assert (Hdiv : (month_index (max_date sc) - month_index first) / 3
                 = Z.of_nat n - 1)
    by (Z.div_mod_to_equations; lia).
  rewrite Hdiv. lia.
Qed.

Lemma date_tick_count_witness :
  exists lines,
    svg_lines scenario_points = Ok lines
    /\ List.length (filter is_date_tick lines)
       = (2 * Z.to_nat ((month_index (max_date scenario_scale)
                         - month_index (min_date scenario_scale)) / 3 + 1))%nat.
Proof.
  apply (date_tick_count scenario_points scenario_scale).
  - reflexivity.
  - reflexivity.
  - repeat constructor.
  - apply ticks_in_range_before. reflexivity.
Defined.

(** X19: when the value span is a finite float above zero, the lowest of
    the six value ticks equals the smallest value and is drawn on the
    bottom axis. *)
Theorem lowest_value_tick (sc : scale) (m : positive) (e : Z) :
  F64.sub (max_value sc) (min_value sc) = S754_finite false m e ->
  F64.eqb (tick_value sc 0) (min_value sc) = true
  /\ value_to_y sc (tick_value sc 0) = Ok y_bottom.
Proof.
  intros Hspan. unfold value_to_y, F64.truediv, tick_value.
  rewrite Hspan. cbn [F64.is_zero bind].
  change (SFdiv F64.prec F64.emax
            (F64.mul (F64.of_Z 0) (S754_finite false m e)) (F64.of_Z 5))
    with (S754_zero false).
  destruct (max_value sc) as [sa|sa| |sa ma ea],
           (min_value sc) as [sb|sb| |sb mb eb];
    cbv beta iota delta [F64.sub SFsub] in Hspan;
    try discriminate; try (destruct sa, sb; discriminate).
  all: first
    [ solve [destruct sb; split; reflexivity]
    | change (F64.add (S754_finite sb mb eb) (S754_zero false))
        with (S754_finite sb mb eb);
      split;
      [ unfold F64.eqb, SFeqb;
        rewrite F64Facts.compare_refl; [reflexivity | discriminate]
      | rewrite (sub_self (S754_finite sb mb eb)) by (right; eauto);
        reflexivity ] ].
Qed.

Lemma lowest_value_tick_witness :
  F64.eqb (tick_value scenario_scale 0) (min_value scenario_scale) = true
  /\ value_to_y scenario_scale (tick_value scenario_scale 0) = Ok y_bottom.
Proof.
  apply (lowest_value_tick scenario_scale 5629499534213120 (-50)).
  reflexivity.
Defined.
